(** * GPU allocation optimizer: the MILP encoder and the result assembler

    A shallow embedding of [optimizer/gpu_optimizer.py] and
    [optimizer/opt_types.py].  Python dictionaries are [gmap]s, floats and
    ints that enter the linear program are rationals ([Q]), the modelling
    object [self.mdl] is an explicit state threaded through a state and
    exception monad, and the solver backend is an arbitrary function from the
    encoded model to an optional assignment of the decision variables.

    The bridge to the Go controller, [cmd_folder/go_autoscaler_wrapper.py],
    is embedded after the optimizer: it builds the arguments of one call from
    the controller's data and turns the result into allocations.

    The file has two parts: the definitions (the embedding, the vocabulary of
    the specification and the concrete calls used as examples), then the
    lemmas and the theorems of the numbered properties. *)

From Stdlib Require Import QArith Qround Lqa ZArith Lia.
From stdpp Require Import gmap strings list fin_maps pretty.

(** ** Numbers *)

Definition is_integer (q : Q) : Prop := (inject_Z (Qfloor q) == q)%Q.

Definition is_integerb (q : Q) : bool := Qeq_bool (inject_Z (Qfloor q)) q.

(** Python's [round(x)]: nearest integer, ties to the even neighbour. *)
Definition py_round (q : Q) : Z :=
  let f := Qfloor q in
  match (q - inject_Z f ?= 1 # 2)%Q with
  | Lt => f
  | Gt => (f + 1)%Z
  | Eq => if Z.even f then f else (f + 1)%Z
  end.

(** Python's [sum] on numbers; the order of the additions is immaterial on
    integers and rationals. *)
Definition sumZ (l : list Z) : Z := foldr Z.add 0%Z l.
Definition sumQ (l : list Q) : Q := foldr Qplus (0 : Q) l.

(** Python's [max] on a non-empty sequence [x :: xs]: the first maximal
    element. *)
Definition py_max (x : Q) (xs : list Q) : Q :=
  fold_left (fun acc y => if Qlt_le_dec acc y then y else acc) xs x.

(** ** Types of [opt_types.py] *)

Record VariantData := mkVariantData {
  variant_id : string;
  gpu_type : string;
  gpu_number : Q;
  role : string;
  slo_class : string;
  max_service_rate : Q;
  max_concurrency : Q
}.

Module InstancesData.
Record t := mk {
  instance_num : Z;
  gpu_type : string;
  gpu_number : Q
}.
End InstancesData.

Record OptimizationResultsInstances := mkOptimizationResultsInstances {
  requiredInstances : gmap string InstancesData.t
}.

Record OptimizationResult := mkOptimizationResult {
  gpu_after_allocation : gmap string Z;
  models_data : gmap string OptimizationResultsInstances;
  impossible_models : list string;
  strange_models : list string;
  missing_models : list string;
  impossible_instances : gmap string (list string)
}.

(** ** Exceptions

    The two exceptions that the optimizer can raise on its arguments: a
    missing dictionary key and an attribute access on [None]. *)

Inductive exn := KeyError | AttributeError.

Inductive outcome (A : Type) :=
| Return (a : A)
| Raise (e : exn).
Arguments Return {A} a.
Arguments Raise {A} e.

#[export] Instance outcome_ret : MRet outcome := fun A a => Return a.
#[export] Instance outcome_bind : MBind outcome := fun A B f x =>
  match x with
  | Return a => f a
  | Raise e => Raise e
  end.

(** [d[k]] on a dictionary. *)
Definition getitem {K V} `{Countable K} (d : gmap K V) (k : K) : outcome V :=
  match d !! k with
  | Some v => Return v
  | None => Raise KeyError
  end.

(** A list comprehension whose clauses may raise.  [body x] is the list of
    elements that [x] contributes: a singleton for a plain element, the empty
    list when an [if] clause filters [x] out, and the elements of the inner
    loop for a nested [for]. *)
Fixpoint comprehension {A B} (body : A -> outcome (list B)) (l : list A)
  : outcome (list B) :=
  match l with
  | [] => Return []
  | x :: l' =>
      bs ← body x;
      r ← comprehension body l';
      Return (bs ++ r)
  end.

(** A dictionary comprehension [{k: f k v for k, v in d.items()}]. *)
Definition dict_comprehension {K A B} `{Countable K}
    (f : K -> A -> outcome B) (d : gmap K A) : outcome (gmap K B) :=
  l ← comprehension (fun '(k, a) => b ← f k a; Return [(k, b)])
        (map_to_list d);
  Return (list_to_map l).

(** [d.items()], [d.keys()] and [d.values()]: one enumeration order per
    dictionary, shared by the three views. *)
Definition items {K V} `{Countable K} (d : gmap K V) : list (K * V) :=
  map_to_list d.
Definition keys {K V} `{Countable K} (d : gmap K V) : list K :=
  (map_to_list d).*1.
Definition values {K V} `{Countable K} (d : gmap K V) : list V :=
  (map_to_list d).*2.

(** ** Decision variables, linear expressions and constraints

    The decision variables of the program are the handles stored in the
    dictionaries [eta], [used_gpu] and [delta]; a handle is identified by the
    dictionary and the key it was created for. *)

Inductive var :=
| eta_var (model_id setup_id : string)
| used_gpu_var (gpu_type : string)
| delta_var (model_id setup_id : string).

#[export] Instance var_eq_dec : EqDecision var.
Proof. solve_decision. Defined.

(** The handle created for a tuple key of [eta] and of [delta]. *)
Definition eta_name (k : string * string) : var := eta_var k.1 k.2.
Definition delta_name (k : string * string) : var := delta_var k.1 k.2.

#[local] Unset Elimination Schemes.
Inductive expr :=
| Num (q : Q)
| Var (x : var)
| Scale (c : Q) (e : expr)
| Plus (a b : expr)
| Minus (a b : expr)
| Sum (es : list expr).
#[local] Set Elimination Schemes.

Inductive ct :=
| LeCt (a b : expr)
| GeCt (a b : expr).

(** The value of every decision variable in a solution. *)
Definition assignment := var -> Q.

Fixpoint eval (σ : assignment) (e : expr) : Q :=
  match e with
  | Num q => q
  | Var x => σ x
  | Scale c e => (c * eval σ e)%Q
  | Plus a b => (eval σ a + eval σ b)%Q
  | Minus a b => (eval σ a - eval σ b)%Q
  | Sum es => foldr (fun e acc => (eval σ e + acc)%Q) (0 : Q) es
  end.

Definition holds (σ : assignment) (c : ct) : Prop :=
  match c with
  | LeCt a b => (eval σ a <= eval σ b)%Q
  | GeCt a b => (eval σ b <= eval σ a)%Q
  end.

Definition holdsb (σ : assignment) (c : ct) : bool :=
  match c with
  | LeCt a b => Qle_bool (eval σ a) (eval σ b)
  | GeCt a b => Qle_bool (eval σ b) (eval σ a)
  end.

(** ** The modelling object

    [Model] is the state behind [AbstractOptimizationModel]: the declared
    variables, the named constraints, the SOS1 sets and the objective.
    Variables are declared without bounds, which the backend reads as a lower
    bound of 0 and no upper bound. *)

Record Model := mkModel {
  integer_vars : list var;
  continuous_vars : list var;
  constraints : list (string * ct);
  sos1_sets : list (list var);
  objective : option expr
}.

Definition new_model : Model := mkModel [] [] [] [] None.

(** Computations on [self.mdl] that may raise. *)
Definition M (A : Type) : Type := Model -> outcome (A * Model).

#[export] Instance M_ret : MRet M := fun A a mdl => Return (a, mdl).
#[export] Instance M_bind : MBind M := fun A B f x mdl =>
  match x mdl with
  | Return (a, mdl') => f a mdl'
  | Raise e => Raise e
  end.

(** A computation that does not touch the modelling object. *)
Definition lift {A} (o : outcome A) : M A := fun mdl =>
  match o with
  | Return a => Return (a, mdl)
  | Raise e => Raise e
  end.

(** A comprehension run for its effects on the modelling object. *)
Fixpoint for_each {A} (body : A -> M unit) (l : list A) : M unit :=
  match l with
  | [] => mret tt
  | x :: l' => body x ≫= fun _ => for_each body l'
  end.

(** The methods of the modelling interface.  A dictionary of handles maps
    each key to the variable created for it. *)
Definition var_dict {K} `{Countable K} (keys : list K) (name : K -> var)
  : gmap K var :=
  list_to_map ((fun k => (k, name k)) <$> keys).

Definition add_integer_vars {K} `{Countable K} (keys : list K)
    (name : K -> var) : M (gmap K var) := fun mdl =>
  Return (var_dict keys name,
          mkModel (integer_vars mdl ++ (name <$> keys)) (continuous_vars mdl)
                  (constraints mdl) (sos1_sets mdl) (objective mdl)).

Definition add_continuous_vars {K} `{Countable K} (keys : list K)
    (name : K -> var) : M (gmap K var) := fun mdl =>
  Return (var_dict keys name,
          mkModel (integer_vars mdl) (continuous_vars mdl ++ (name <$> keys))
                  (constraints mdl) (sos1_sets mdl) (objective mdl)).

Definition add_constraints (cts : list ct) (name : string) : M unit :=
  fun mdl =>
  Return (tt,
          mkModel (integer_vars mdl) (continuous_vars mdl)
                  (constraints mdl ++ ((fun c => (name, c)) <$> cts))
                  (sos1_sets mdl) (objective mdl)).

Definition add_sos1 (vars : list var) : M unit := fun mdl =>
  Return (tt,
          mkModel (integer_vars mdl) (continuous_vars mdl) (constraints mdl)
                  (sos1_sets mdl ++ [vars]) (objective mdl)).

Definition minimize (e : expr) : M unit := fun mdl =>
  Return (tt,
          mkModel (integer_vars mdl) (continuous_vars mdl) (constraints mdl)
                  (sos1_sets mdl) (Some e)).

Definition get_solution_values {K} `{Countable K} (var : gmap K var)
    (σ : assignment) : gmap K Q :=
  σ <$> var.

(** ** What a backend may answer

    The contract of [solve]: a solution gives every declared variable a
    value that is at least 0, integral for an integer variable, satisfies
    every constraint, and has at most one non-zero variable in every SOS1
    set; an optimal solution also minimizes the objective.  [feasibleb] is
    the executable check of the same conditions. *)

Definition nonzero (σ : assignment) (x : var) : bool :=
  negb (Qeq_bool (σ x) 0).

Definition sos1_ok (σ : assignment) (vars : list var) : Prop :=
  (length (List.filter (nonzero σ) vars) <= 1)%nat.

Definition objective_value (mdl : Model) (σ : assignment) : Q :=
  match objective mdl with
  | Some e => eval σ e
  | None => 0
  end.

Record feasible (mdl : Model) (σ : assignment) : Prop := mkFeasible {
  feasible_integer :
    Forall (fun x => (0 <= σ x)%Q /\ is_integer (σ x)) (integer_vars mdl);
  feasible_continuous :
    Forall (fun x => (0 <= σ x)%Q) (continuous_vars mdl);
  feasible_constraints :
    Forall (fun nc => holds σ nc.2) (constraints mdl);
  feasible_sos1 :
    Forall (sos1_ok σ) (sos1_sets mdl)
}.

Definition optimal (mdl : Model) (σ : assignment) : Prop :=
  feasible mdl σ /\
  forall σ', feasible mdl σ' ->
    (objective_value mdl σ <= objective_value mdl σ')%Q.

Definition feasibleb (mdl : Model) (σ : assignment) : bool :=
  forallb (fun x => Qle_bool 0 (σ x) && is_integerb (σ x)) (integer_vars mdl)
  && forallb (fun x => Qle_bool 0 (σ x)) (continuous_vars mdl)
  && forallb (fun nc => holdsb σ nc.2) (constraints mdl)
  && forallb (fun vars => Nat.leb (length (List.filter (nonzero σ) vars)) 1)
       (sos1_sets mdl).

(** ** The arguments of [get_optimal_gpu_allocation]

    [deployed_instances] is [None] when the argument is omitted; a replica
    bound may be [None] inside [max_replicas] and [min_replicas]. *)

Record Args := mkArgs {
  variants : gmap string (gmap string VariantData);
  required_rates : gmap string Q;
  gpu_limits : gmap string Z;
  gpu_cost : gmap string Q;
  scale_to_zero : list string;
  deployed_instances : option (gmap string (gmap string Z));
  change_penalty : Q;
  homogeneous : bool;
  max_replicas : gmap string (gmap string (option Z));
  min_replicas : gmap string (gmap string (option Z))
}.

(** An attribute access ([.get], [.keys], [.items]) on [deployed_instances]. *)
Definition deployed_dict (a : Args) : outcome (gmap string (gmap string Z)) :=
  match deployed_instances a with
  | Some d => Return d
  | None => Raise AttributeError
  end.

(** The comprehensions of the function, in source order, for the arguments
    [a] and the dictionary of handles [eta]. *)
Section Encoder.
Variable a : Args.
Variable eta : gmap (string * string) var.

(** The keys of [eta]: every (model, setup) pair of the catalog. *)
Definition eta_keys : list (string * string) :=
  '(model_id, setups) ← items (variants a);
  (fun setup_id => (model_id, setup_id)) <$> keys setups.

Definition max_replicas_ct : outcome (list ct) :=
  comprehension (fun '(model_id, model_data) =>
    comprehension (fun '(setup_id, replicas) =>
      match replicas with
      | Some r =>
          x ← getitem eta (model_id, setup_id);
          Return [LeCt (Var x) (Num (inject_Z r))]
      | None => Return []
      end) (items model_data))
    (items (max_replicas a)).

Definition min_replicas_ct : outcome (list ct) :=
  comprehension (fun '(model_id, model_data) =>
    comprehension (fun '(setup_id, replicas) =>
      match replicas with
      | Some r =>
          if decide (r = 0%Z) then Return []
          else
            x ← getitem eta (model_id, setup_id);
            Return [GeCt (Var x) (Num (inject_Z r))]
      | None => Return []
      end) (items model_data))
    (items (min_replicas a)).

(** [[eta[(model_id, setup_id)] for setup_id in variants[model_id].keys()]] *)
Definition sos1_vars (model_id : string) : outcome (list var) :=
  setups ← getitem (variants a) model_id;
  comprehension (fun setup_id =>
    x ← getitem eta (model_id, setup_id); Return [x]) (keys setups).

Definition min_instances_ct : outcome (list ct) :=
  comprehension (fun '(model_id, setups) =>
    if decide (model_id ∈ scale_to_zero a) then Return []
    else
      deployed ← deployed_dict a;
      if decide (0 < sumZ (values (default {["a" := 0%Z]}
                                    (deployed !! model_id))))%Z
      then
        xs ← comprehension (fun setup_id =>
                x ← getitem eta (model_id, setup_id); Return [Var x])
              (keys setups);
        Return [GeCt (Sum xs) (Num 1)]
      else Return [])
    (items (variants a)).

Definition service_rate_ct : outcome (list ct) :=
  comprehension (fun model_id =>
    rate ← getitem (required_rates a) model_id;
    setups ← getitem (variants a) model_id;
    terms ← comprehension (fun '(setup_id, setup_data) =>
               x ← getitem eta (model_id, setup_id);
               Return [Scale (max_service_rate setup_data) (Var x)])
             (items setups);
    Return [LeCt (Num rate) (Sum terms)])
    (keys (required_rates a)).

(** The setups bound to one accelerator type, with their accelerator
    counts. *)
Definition setups_of_type (t : string) : list (string * string * Q) :=
  '(model_id, setups) ← items (variants a);
  '(setup_id, setup_data) ← items setups;
  if decide (gpu_type setup_data = t)
  then [(model_id, setup_id, gpu_number setup_data)] else [].

(** The dictionary [setups_per_gpu] after its second comprehension, which
    keeps the types with a non-empty list. *)
Definition setups_per_gpu : gmap string (list (string * string * Q)) :=
  filter (fun kv => kv.2 ≠ [])
    (map_imap (fun t _ => Some (setups_of_type t)) (gpu_limits a)).

(** [gpu_cost.get(gpu_type, 0)] *)
Definition cost_of (t : string) : Q := default (0 : Q) (gpu_cost a !! t).

Definition max_gpu_cost : Q :=
  match keys setups_per_gpu with
  | t :: ts => py_max (cost_of t) (cost_of <$> ts)
  | [] => 0
  end.

(** [[setup_data[2] * eta[(setup_data[0], setup_data[1])] for setup_data in
    gpu_setups]] *)
Definition gpu_terms (gpu_setups : list (string * string * Q))
  : outcome (list expr) :=
  comprehension (fun '(model_id, setup_id, n) =>
    x ← getitem eta (model_id, setup_id); Return [Scale n (Var x)])
    gpu_setups.

Definition gpu_limit_ct : outcome (list ct) :=
  comprehension (fun '(t, gpu_setups) =>
    terms ← gpu_terms gpu_setups;
    limit ← getitem (gpu_limits a) t;
    Return [LeCt (Sum terms) (Num (inject_Z limit))])
    (items setups_per_gpu).

Definition delta_keys (deployed : gmap string (gmap string Z))
  : outcome (list (string * string)) :=
  comprehension (fun model_id =>
    setups ← getitem (variants a) model_id;
    Return ((fun setup_id => (model_id, setup_id)) <$> keys setups))
    (keys deployed).

Definition delta_rates (deployed : gmap string (gmap string Z))
  : outcome (gmap string Q) :=
  dict_comprehension (fun model_id inst_data =>
    rates ← comprehension (fun '(setup_id, inst_num) =>
               setups ← getitem (variants a) model_id;
               setup_data ← getitem setups setup_id;
               Return [(inject_Z inst_num * max_service_rate setup_data)%Q])
             (items inst_data);
    Return (sumQ rates - default (0 : Q) (required_rates a !! model_id))%Q)
    deployed.

Definition instance_change_ct (delta : gmap (string * string) var)
    (rates : gmap string Q) (deployed : gmap string (gmap string Z))
  : outcome (list ct) :=
  comprehension (fun '(model_id, setup_data) =>
    comprehension (fun '(setup_id, inst_num) =>
      rate ← getitem rates model_id;
      d ← getitem delta (model_id, setup_id);
      x ← getitem eta (model_id, setup_id);
      if Qle_bool 0 rate
      then Return [GeCt (Var d) (Minus (Var x) (Num (inject_Z inst_num)))]
      else Return [GeCt (Var d) (Minus (Num (inject_Z inst_num)) (Var x))])
      (items setup_data))
    (items deployed).

Definition int_gpu_ct (used_gpu : gmap string var) : outcome (list ct) :=
  comprehension (fun '(t, gpu_setups) =>
    u ← getitem used_gpu t;
    terms ← gpu_terms gpu_setups;
    Return [GeCt (Var u) (Sum terms)])
    (items setups_per_gpu).

Definition cost_terms (used_gpu : gmap string var) : outcome (list expr) :=
  comprehension (fun t =>
    u ← getitem used_gpu t; Return [Scale (cost_of t) (Var u)])
    (keys setups_per_gpu).

(** [self.mdl.sum(delta)]: the sum of the handles of the dictionary, or the
    number itself when [delta] is the integer 0. *)
Definition sum_delta (delta : option (gmap (string * string) var)) : expr :=
  match delta with
  | Some d => Sum (Var <$> values d)
  | None => Num 0
  end.
End Encoder.

(** ** [GPUOptimizer.get_optimal_gpu_allocation] *)

Definition empty_result : OptimizationResult :=
  mkOptimizationResult ∅ ∅ [] [] [] ∅.

Section GPUOptimizer.
(** The backend behind [self.mdl.solve()]: [None] is the no-solution
    signal. *)
Variable solve : Model -> option assignment.

Definition mdl_solve : M (option assignment) := fun mdl =>
  Return (solve mdl, mdl).

(** The change-penalty block; the result is the dictionary [delta], or
    [None] for the integer 0 of the [else] branch. *)
Definition encode_change_penalty (a : Args)
    (eta : gmap (string * string) var)
  : M (option (gmap (string * string) var)) :=
  if Qlt_le_dec 0 (change_penalty a) then
    deployed ← lift (deployed_dict a);
    dkeys ← lift (delta_keys a deployed);
    delta ← add_continuous_vars dkeys delta_name;
    rates ← lift (delta_rates a deployed);
    cts ← lift (instance_change_ct eta delta rates deployed);
    add_constraints cts "instance_change_ct" ≫= fun _ =>
    mret (Some delta)
  else mret None.

(** Everything up to the call of [solve]: the dictionaries [eta] and
    [used_gpu] are returned for the result assembly. *)
Definition encode (a : Args)
  : M (gmap (string * string) var * gmap string var) :=
  eta ← add_integer_vars (eta_keys a) eta_name;
  (if decide (max_replicas a = ∅) then mret tt
   else cts ← lift (max_replicas_ct a eta);
        add_constraints cts "max_replicas_ct") ≫= fun _ =>
  (if decide (min_replicas a = ∅) then mret tt
   else cts ← lift (min_replicas_ct a eta);
        add_constraints cts "min_replicas_ct") ≫= fun _ =>
  (if homogeneous a
   then for_each (fun model_id =>
          vars ← lift (sos1_vars a eta model_id); add_sos1 vars)
        (keys (required_rates a))
   else mret tt) ≫= fun _ =>
  cts ← lift (min_instances_ct a eta);
  add_constraints cts "min_instances_ct" ≫= fun _ =>
  cts ← lift (service_rate_ct a eta);
  add_constraints cts "service_rate_ct" ≫= fun _ =>
  cts ← lift (gpu_limit_ct a eta);
  add_constraints cts "gpu_limit_ct" ≫= fun _ =>
  delta ← encode_change_penalty a eta;
  used_gpu ← add_integer_vars (keys (setups_per_gpu a)) used_gpu_var;
  cts ← lift (int_gpu_ct a eta used_gpu);
  add_constraints cts "int_gpu_ct" ≫= fun _ =>
  costs ← lift (cost_terms a used_gpu);
  minimize (Plus (Sum costs)
              (Scale (max_gpu_cost a)
                 (Scale (change_penalty a) (sum_delta delta)))) ≫= fun _ =>
  mret (eta, used_gpu).

(** The [result is not None] branch. *)
Definition assemble (a : Args) (eta : gmap (string * string) var)
    (used_gpu : gmap string var) (σ : assignment)
  : outcome OptimizationResult :=
  let instances := get_solution_values eta σ in
  let gpus := get_solution_values used_gpu σ in
  instances_per_model ←
    dict_comprehension (fun model_id setups =>
      dict_comprehension (fun setup_id setup_data =>
        v ← getitem instances (model_id, setup_id);
        Return (InstancesData.mk (py_round v) (gpu_type setup_data)
                  (gpu_number setup_data)))
        setups)
      (variants a);
  gpus ←
    dict_comprehension (fun t gpu_num =>
      limit ← getitem (gpu_limits a) t;
      Return (py_round (inject_Z limit - gpu_num)))
      gpus;
  let instances := mkOptimizationResultsInstances <$> instances_per_model in
  let gpus :=
    match keys (setups_per_gpu a) with
    | [] => (fun limit => py_round (inject_Z limit)) <$> gpu_limits a
    | _ :: _ => gpus
    end in
  Return (mkOptimizationResult gpus instances [] [] [] ∅).

Definition get_optimal_gpu_allocation (a : Args) : M OptimizationResult :=
  '(eta, used_gpu) ← encode a;
  result ← mdl_solve;
  match result with
  | Some σ => lift (assemble a eta used_gpu σ)
  | None => mret empty_result
  end.
End GPUOptimizer.

(** One optimization call on a fresh modelling object, as both entry points
    of the repository make it. *)
Definition optimize (solve : Model -> option assignment) (a : Args)
  : outcome OptimizationResult :=
  r ← get_optimal_gpu_allocation solve a new_model;
  Return r.1.

(** ** The shape of the encoded model

    [encoding] collects what the comprehensions of one call evaluate to;
    [model_of] is the state of the modelling object when [solve] is called. *)

Definition eta_dict (a : Args) : gmap (string * string) var :=
  var_dict (eta_keys a) eta_name.

Definition used_gpu_dict (a : Args) : gmap string var :=
  var_dict (keys (setups_per_gpu a)) used_gpu_var.

Definition tag (name : string) (cts : list ct) : list (string * ct) :=
  (fun c => (name, c)) <$> cts.

Record encoding := mkEncoding {
  e_max : list ct;
  e_min : list ct;
  e_sos1 : list (list var);
  e_inst : list ct;
  e_rate : list ct;
  e_limit : list ct;
  e_delta : option (gmap (string * string) var);
  e_delta_vars : list var;
  e_change : list ct;
  e_int : list ct;
  e_costs : list expr
}.

Definition change_encoded (a : Args) (E : encoding) : Prop :=
  if Qlt_le_dec 0 (change_penalty a) then
    exists deployed dkeys rates,
      deployed_instances a = Some deployed /\
      delta_keys a deployed = Return dkeys /\
      e_delta E = Some (var_dict dkeys delta_name) /\
      e_delta_vars E = delta_name <$> dkeys /\
      delta_rates a deployed = Return rates /\
      instance_change_ct (eta_dict a) (var_dict dkeys delta_name) rates
        deployed = Return (e_change E)
  else e_delta E = None /\ e_delta_vars E = [] /\ e_change E = [].

Record encodes (a : Args) (E : encoding) : Prop := mkEncodes {
  enc_max :
    if decide (max_replicas a = ∅) then e_max E = []
    else max_replicas_ct a (eta_dict a) = Return (e_max E);
  enc_min :
    if decide (min_replicas a = ∅) then e_min E = []
    else min_replicas_ct a (eta_dict a) = Return (e_min E);
  enc_sos1 :
    if homogeneous a
    then Forall2 (fun model_id vars =>
                    sos1_vars a (eta_dict a) model_id = Return vars)
           (keys (required_rates a)) (e_sos1 E)
    else e_sos1 E = [];
  enc_inst : min_instances_ct a (eta_dict a) = Return (e_inst E);
  enc_rate : service_rate_ct a (eta_dict a) = Return (e_rate E);
  enc_limit : gpu_limit_ct a (eta_dict a) = Return (e_limit E);
  enc_change : change_encoded a E;
  enc_int : int_gpu_ct a (eta_dict a) (used_gpu_dict a) = Return (e_int E);
  enc_costs : cost_terms a (used_gpu_dict a) = Return (e_costs E)
}.

Definition objective_of (a : Args) (E : encoding) : expr :=
  Plus (Sum (e_costs E))
    (Scale (max_gpu_cost a)
       (Scale (change_penalty a) (sum_delta (e_delta E)))).

Definition model_of (a : Args) (E : encoding) : Model :=
  mkModel
    ((eta_name <$> eta_keys a) ++ (used_gpu_var <$> keys (setups_per_gpu a)))
    (e_delta_vars E)
    (tag "max_replicas_ct" (e_max E) ++ tag "min_replicas_ct" (e_min E) ++
     tag "min_instances_ct" (e_inst E) ++ tag "service_rate_ct" (e_rate E) ++
     tag "gpu_limit_ct" (e_limit E) ++ tag "instance_change_ct" (e_change E) ++
     tag "int_gpu_ct" (e_int E))
    (e_sos1 E)
    (Some (objective_of a E)).

(** [variants[m][s]], when both keys are present. *)
Definition variant_of (a : Args) (m s : string) : option VariantData :=
  variants a !! m ≫= fun setups => setups !! s.


(** ** Reading a call and its result *)

(** The model handed to [solve] by a call on a fresh modelling object. *)
Definition encoded_model (a : Args) : outcome Model :=
  r ← encode a new_model;
  Return r.2.

(** The call returns [res] from the branch in which the backend reported the
    solution [σ], a solution of the encoded model. *)
Definition returns_plan (solve : Model -> option assignment) (a : Args)
    (σ : assignment) (res : OptimizationResult) : Prop :=
  exists mdl,
    encoded_model a = Return mdl /\ solve mdl = Some σ /\ feasible mdl σ /\
    optimize solve a = Return res.

(** As [returns_plan], for a backend whose solution is optimal. *)
Definition returns_optimal_plan (solve : Model -> option assignment)
    (a : Args) (σ : assignment) (res : OptimizationResult) : Prop :=
  exists mdl,
    encoded_model a = Return mdl /\ solve mdl = Some σ /\ optimal mdl σ /\
    optimize solve a = Return res.

(** [models_data[m].requiredInstances[s]] *)
Definition instance_of (res : OptimizationResult) (m s : string)
  : option InstancesData.t :=
  models_data res !! m ≫= fun r => requiredInstances r !! s.

(** The replica count reported for a pair, 0 for a pair without entry. *)
Definition replicas (res : OptimizationResult) (m s : string) : Z :=
  default 0%Z (InstancesData.instance_num <$> instance_of res m s).

(** The service rate that the reported replicas of a model sustain. *)
Definition served_rate (res : OptimizationResult) (m : string)
    (setups : gmap string VariantData) : Q :=
  sumQ ((fun '(s, sd) =>
           (max_service_rate sd * inject_Z (replicas res m s))%Q)
        <$> items setups).

(** The replicas reported for a model, over all its setups. *)
Definition total_replicas (res : OptimizationResult) (m : string)
    (setups : gmap string VariantData) : Z :=
  sumZ ((fun s => replicas res m s) <$> keys setups).

(** ** The scenario of [tests/unit/test_optimizer.py]

    The catalog, supply, cost and demand of the unit test, with the arguments
    of its first call (homogeneous, no change penalty) and of its second call
    (heterogeneous, change penalty 3), and the solutions the test expects. *)

Definition test_variant (id t : string) (n rate conc : Q) (slo : string)
  : VariantData :=
  mkVariantData id t n "inference" slo rate conc.

Definition test_variants : gmap string (gmap string VariantData) :=
  list_to_map [
    ("google-flan-xl", list_to_map [
       ("flan-a100", test_variant "flan-a100" "A100" 6 15 4 "standard");
       ("flan-h100", test_variant "flan-h100" "H100" 3 20 4 "standard")]);
    ("lama-8b", list_to_map [
       ("lama8-a100+", test_variant "lama8-a100+" "A100+" 5 10 2 "standard");
       ("lama8-a100", test_variant "lama8-a100" "A100" 3 8 2 "standard")]);
    ("lama-80b", list_to_map [
       ("lama80-h100", test_variant "lama80-h100" "H100" 4 12 1 "premium");
       ("lama80-a100+", test_variant "lama80-a100+" "A100+" 7 10 1 "premium")]);
    ("mistral", list_to_map [
       ("mistral-a100", test_variant "mistral-a100" "A100" 4 14 3 "standard");
       ("mistral-h100", test_variant "mistral-h100" "H100" 1 12 3 "standard")])].

Definition test_required_rates : gmap string Q :=
  list_to_map [("google-flan-xl", 25 : Q); ("lama-8b", 20 : Q);
               ("lama-80b", 22 : Q); ("mistral", 15 : Q)].

Definition test_gpu_limits : gmap string Z :=
  list_to_map [("A100", 15%Z); ("H100", 17%Z); ("A100+", 20%Z)].

Definition test_gpu_cost : gmap string Q :=
  list_to_map [("A100", 1 : Q); ("H100", (13 # 10)%Q); ("A100+", (12 # 10)%Q)].

Definition test_max_replicas : gmap string (gmap string (option Z)) :=
  list_to_map [
    ("lama-8b", list_to_map [("lama8-a100+", Some 3%Z);
                             ("lama8-a100", Some 2%Z)]);
    ("mistral", list_to_map [("mistral-a100", Some 2%Z);
                             ("mistral-h100", Some 2%Z)])].

Definition test_min_replicas : gmap string (gmap string (option Z)) :=
  list_to_map [
    ("google-flan-xl", list_to_map [("flan-a100", Some 1%Z)]);
    ("mistral", list_to_map [("mistral-h100", Some 1%Z)])].

Definition test_deployed (flan_h100 : Z) : gmap string (gmap string Z) :=
  list_to_map [
    ("google-flan-xl", list_to_map [("flan-a100", 1%Z);
                                    ("flan-h100", flan_h100)]);
    ("lama-80b", list_to_map [("lama80-h100", 1%Z); ("lama80-a100+", 0%Z)]);
    ("lama-8b", list_to_map [("lama8-a100+", 1%Z); ("lama8-a100", 0%Z)]);
    ("mistral", list_to_map [("mistral-a100", 0%Z); ("mistral-h100", 0%Z)])].

Definition test_call_1 : Args :=
  mkArgs test_variants test_required_rates test_gpu_limits test_gpu_cost
    ["lama-80b"] (Some (test_deployed 0)) 0%Q true
    test_max_replicas test_min_replicas.

Definition test_call_2 : Args :=
  mkArgs test_variants test_required_rates test_gpu_limits test_gpu_cost
    ["lama-80b"] (Some (test_deployed 1)) 3%Q false
    test_max_replicas test_min_replicas.

Definition test_solution_1 : assignment := fun x =>
  match x with
  | eta_var _ "flan-a100" => 2%Q
  | eta_var _ "lama80-h100" => 2%Q
  | eta_var _ "lama8-a100+" => 2%Q
  | eta_var _ "mistral-h100" => 2%Q
  | used_gpu_var "A100" => 12%Q
  | used_gpu_var "H100" => 10%Q
  | used_gpu_var "A100+" => 10%Q
  | _ => 0%Q
  end.

Definition test_solution_2 : assignment := fun x =>
  match x with
  | eta_var _ "flan-a100" => 1%Q
  | eta_var _ "flan-h100" => 1%Q
  | eta_var _ "lama80-h100" => 2%Q
  | eta_var _ "lama8-a100+" => 2%Q
  | eta_var _ "mistral-h100" => 2%Q
  | used_gpu_var "A100" => 6%Q
  | used_gpu_var "H100" => 13%Q
  | used_gpu_var "A100+" => 10%Q
  | _ => 0%Q
  end.

(** The backend that answers [σ] on every model. *)
Definition answer (σ : assignment) : Model -> option assignment :=
  fun _ => Some σ.

(** The model a call encodes, for use where the encoding is known to
    succeed. *)
Definition model_of_call (a : Args) : Model :=
  match encoded_model a with
  | Return mdl => mdl
  | Raise _ => new_model
  end.

(** The value a call returns, for use where the call is known to return. *)
Definition result_of (solve : Model -> option assignment) (a : Args)
  : OptimizationResult :=
  match optimize solve a with
  | Return res => res
  | Raise _ => empty_result
  end.

(** ** Further concrete calls *)

(** One model with one setup on A100, and no current layout passed. *)
Definition omitted_layout_call : Args :=
  mkArgs
    {[ "m" := {[ "v" := test_variant "v" "A100" 1 10 1 "standard" ]} ]}
    {[ "m" := 10%Q ]} {[ "A100" := 4%Z ]} {[ "A100" := 1%Q ]}
    [] None 0%Q false ∅ ∅.

(** The same catalog with a second accelerator type in the supply that no
    setup uses. *)
Definition unused_type_call : Args :=
  mkArgs
    {[ "m" := {[ "v" := test_variant "v" "A100" 1 10 1 "standard" ]} ]}
    {[ "m" := 10%Q ]}
    (list_to_map [("A100", 4%Z); ("H100", 8%Z)])
    (list_to_map [("A100", 1%Q); ("H100", 2%Q)])
    [] (Some ∅) 0%Q false ∅ ∅.

Definition unused_type_solution : assignment := fun x =>
  match x with
  | eta_var "m" "v" => 1%Q
  | used_gpu_var "A100" => 1%Q
  | _ => 0%Q
  end.

(** ** The constraints of the specification *)

(** The constraints that the model holds under one name. *)
Definition named (name : string) (mdl : Model) : list ct :=
  (filter (fun nc => nc.1 = name) (constraints mdl)).*2.

(** The sum of the replica counts of a model in the current layout: 0 for a
    model without entry and when there is no layout. *)
Definition current_total (a : Args) (m : string) : Z :=
  match deployed_instances a with
  | Some d => sumZ (values (default ∅ (d !! m)))
  | None => 0
  end.

(** The models that must stay active: outside [scale_to_zero] and with a
    positive number of current replicas. *)
Definition forced_active (a : Args) : list (string * gmap string VariantData) :=
  filter (fun ms => (ms.1 ∉ scale_to_zero a) /\ (0 < current_total a ms.1)%Z)
    (items (variants a)).

(** The minimum-one constraint of a model: the sum of its [eta] is at least
    1. *)
Definition min_one (m : string) (setups : gmap string VariantData) : ct :=
  GeCt (Sum ((fun s => Var (eta_var m s)) <$> keys setups)) (Num 1).


(** The two forms of the change constraint of a pair with [n] current
    replicas. *)
Definition growth_ct (m s : string) (n : Z) : ct :=
  GeCt (Var (delta_var m s)) (Minus (Var (eta_var m s)) (Num (inject_Z n))).
Definition shrink_ct (m s : string) (n : Z) : ct :=
  GeCt (Var (delta_var m s)) (Minus (Num (inject_Z n)) (Var (eta_var m s))).



(** An accelerator type is eligible when it is in the supply and some setup
    of the catalog runs on it. *)
Definition eligible (a : Args) (t : string) : Prop :=
  is_Some (gpu_limits a !! t) /\
  exists m s sd, variant_of a m s = Some sd /\ gpu_type sd = t.

(** The accelerators of one type that a result consumes: over the setups of
    that type, the accelerator count times the reported replicas. *)
Definition consumed (a : Args) (res : OptimizationResult) (t : string) : Q :=
  sumQ ((fun '(m, s, n) => (n * inject_Z (replicas res m s))%Q)
        <$> setups_of_type a t).

(** ** Assignments that differ on one variable *)

Definition update (σ : assignment) (u : var) (v : Q) : assignment :=
  fun x => if decide (x = u) then v else σ x.








(** The accelerators of one type that an assignment consumes. *)
Definition gpu_load (a : Args) (σ : assignment) (t : string) : Q :=
  sumQ ((fun '(m, s, n) => (n * σ (eta_var m s))%Q) <$> setups_of_type a t).


#[export] Instance delta_name_inj : Inj eq eq delta_name.
Proof. intros [m s] [m' s'] [= -> ->]. reflexivity. Qed.

(** ** Tactics for concrete calls *)

(** Unpack the hypotheses of a solution of a concrete model into
    inequalities between rationals. *)
Ltac unpack_feasible H :=
  let Hi := fresh "Hint" in
  let Hc := fresh "Hcont" in
  let Hk := fresh "Hcts" in
  let Hs := fresh "Hsos" in
  destruct H as [Hi Hc Hk Hs];
  cbn [integer_vars continuous_vars constraints sos1_sets] in Hi, Hc, Hk, Hs;
  repeat match goal with
  | H' : Forall _ (_ :: _) |- _ =>
      let H1 := fresh "Hhd" in
      apply Forall_cons_1 in H' as [H1 H']
  | H' : Forall _ [] |- _ => clear H'
  end;
  cbn [holds eval snd foldr] in *.

(** A plan on concrete arguments, by evaluating the call; [sound] is the
    soundness of the feasibility check. *)
Ltac plan_by_computation sound :=
  eexists; split; [vm_compute; reflexivity|];
  split; [reflexivity|];
  split; [apply sound; vm_compute; reflexivity|];
  vm_compute; reflexivity.

(** The same for an optimal plan, leaving the optimality of the solution. *)
Ltac optimal_plan_by_computation sound :=
  eexists; split; [vm_compute; reflexivity|];
  split; [reflexivity|];
  split; [|vm_compute; reflexivity];
  split; [apply sound; vm_compute; reflexivity|].

(** ** Arguments whose references resolve

    The lookups that the function makes on its arguments: the pairs bounded by
    [max_replicas] (bound not [None]) and by [min_replicas] (bound neither
    [None] nor 0) and the models of [required_rates] are looked up in the
    catalog; the current layout is read for every catalog model outside
    [scale_to_zero]; with a positive [change_penalty] the layout is read as a
    whole and its models and pairs are looked up in the catalog. *)








(** ** Concrete calls for the further properties *)

(** A catalog whose only setup runs on a type outside the supply: no type
    is eligible. *)
Definition no_eligible_call : Args :=
  mkArgs
    {[ "m" := {[ "v" := test_variant "v" "TPU" 1 10 1 "standard" ]} ]}
    {[ "m" := 10%Q ]} {[ "A100" := 4%Z ]} {[ "A100" := 1%Q ]}
    [] (Some ∅) 0%Q false ∅ ∅.

Definition no_eligible_solution : assignment := fun x =>
  match x with
  | eta_var "m" "v" => 1%Q
  | _ => 0%Q
  end.

(** Homogeneous placement with minimum bounds on both setups of a model. *)
Definition conflict_call : Args :=
  mkArgs
    {[ "m" := list_to_map
                [("v1", test_variant "v1" "A100" 1 10 1 "standard");
                 ("v2", test_variant "v2" "H100" 1 10 1 "standard")] ]}
    {[ "m" := 10%Q ]}
    (list_to_map [("A100", 4%Z); ("H100", 4%Z)])
    (list_to_map [("A100", 1%Q); ("H100", 1%Q)])
    [] (Some ∅) 0%Q true ∅
    {[ "m" := list_to_map [("v1", Some 1%Z); ("v2", Some 1%Z)] ]}.


(** * The bridge to the Go controller

    A shallow embedding of [cmd_folder/go_autoscaler_wrapper.py]: the
    extraction of the optimizer's arguments from the controller's data, the
    optimization call, and the translation of the result into one allocation
    per [VariantAutoscaling].  The JSON objects are records with the fields
    the code reads; a field read with [.get] and a default is an [option].
    Printing, the clock ([lastRunTime], [timestamp], [processing_time]) and
    the text of the [error] field are left out. *)

(** ** The controller's data *)

Record AcceleratorProfile := mkAcceleratorProfile {
  acc : string;
  accCount : Z;
  alpha : option string;
  beta : option string;
  atTokens : option Z;
  maxBatchSize : Z
}.

(** [metadata.name], [metadata.namespace], [spec.modelID] and
    [spec.modelProfile.accelerators] of a [VariantAutoscaling]. *)
Record VariantAutoscaling := mkVariantAutoscaling {
  metadata_name : string;
  metadata_namespace : string;
  spec_modelID : string;
  spec_accelerators : list AcceleratorProfile
}.

Record AllocationData := mkAllocationData {
  RequiredPrefillQPS : option Q;
  RequiredDecodeQPS : option Q
}.

Record ModelAnalyzeResponse := mkModelAnalyzeResponse {
  allocations : option (gmap string AllocationData)
}.

Record AcceleratorModelInfo := mkAcceleratorModelInfo {
  Count : option Z
}.

Record GoData := mkGoData {
  variant_autoscalings : option (list VariantAutoscaling);
  model_analysis : option (gmap string ModelAnalyzeResponse);
  cluster_inventory : option (gmap string (gmap string AcceleratorModelInfo));
  accelerator_config : option (gmap string (gmap string string))
}.

(** ** Dictionaries whose order is read

    [run_optimization] reads the first value of [variants_data]: that
    dictionary is kept in insertion order.  [setitem] is [d[k] = v]: the
    value of an existing key is replaced in place, a new key goes last. *)

Definition odict (V : Type) : Type := list (string * V).

Fixpoint setitem {V} (k : string) (v : V) (d : odict V) : odict V :=
  match d with
  | [] => [(k, v)]
  | (k', v') :: d' =>
      if decide (k = k') then (k, v) :: d' else (k', v') :: setitem k v d'
  end.

Definition to_dict {V} (d : odict V) : gmap string V := list_to_map d.

(** One round of a loop that stores [val x] under [key x] when there is
    something to store. *)
Definition store {A V} (key : A -> string) (val : A -> option V)
    (d : gmap string V) (x : A) : gmap string V :=
  match val x with
  | Some v => <[key x := v]> d
  | None => d
  end.

(** ** What the wrapper can raise and what it answers *)

Inductive wrapper_exn :=
| OptimizerError (e : exn)
| IndexError.

Inductive attempt (A : Type) :=
| Done (a : A)
| Failed (e : wrapper_exn).
Arguments Done {A} a.
Arguments Failed {A} e.

Record PythonInput := mkPythonInput {
  input_variants_data : odict (gmap string VariantData);
  input_required_service_rates : gmap string Q;
  input_gpu_limits : gmap string Z;
  input_gpu_cost : gmap string Q;
  input_scale_to_zero : option (list string);
  input_deployed_instances : option (gmap string (gmap string Z));
  input_min_replicas : option (gmap string (gmap string (option Z)));
  input_max_replicas : option (gmap string (gmap string (option Z)))
}.

Record OptimizedAlloc := mkOptimizedAlloc {
  accelerator : string;
  numReplicas : Z
}.

Record GoOutput := mkGoOutput {
  optimized_allocations : gmap string OptimizedAlloc;
  raw_optimization_result : option OptimizationResult;
  success : bool
}.

(** ** [extract_service_rates_from_analysis] *)

Definition total_rate (analysis : ModelAnalyzeResponse) : Q :=
  foldl (fun total_rate '(acc_name, allocation) =>
           let prefill_qps := default 0%Q (RequiredPrefillQPS allocation) in
           let decode_qps := default 0%Q (RequiredDecodeQPS allocation) in
           (total_rate + (prefill_qps + decode_qps))%Q)
    0%Q (items (default ∅ (allocations analysis))).

Definition extract_service_rates_from_analysis (go_data : GoData)
  : gmap string Q :=
  foldl (fun required_rates '(model_name, analysis) =>
           if Qlt_le_dec 0 (total_rate analysis)
           then <[model_name := total_rate analysis]> required_rates
           else required_rates)
    ∅ (items (default ∅ (model_analysis go_data))).

(** ** [extract_gpu_limits_from_inventory] *)

(** One round of the inner loop; the key is present when it is read. *)
Definition count_gpu (gpu_limits : gmap string Z)
    (entry : string * AcceleratorModelInfo) : gmap string Z :=
  let count := default 0%Z (Count entry.2) in
  let gpu_limits :=
    match gpu_limits !! entry.1 with
    | Some _ => gpu_limits
    | None => <[entry.1 := 0%Z]> gpu_limits
    end in
  <[entry.1 := (default 0%Z (gpu_limits !! entry.1) + count)%Z]> gpu_limits.

Definition extract_gpu_limits_from_inventory (go_data : GoData)
  : gmap string Z :=
  foldl (fun gpu_limits '(node_name, node_gpus) =>
           foldl count_gpu gpu_limits (items node_gpus))
    ∅ (items (default ∅ (cluster_inventory go_data))).

(** The counts that the nodes of the inventory list for a GPU model. *)
Definition listed_counts (go_data : GoData) (gpu_model : string) : list Z :=
  omap (fun '(node_name, node_gpus) =>
          (fun gpu_info => default 0%Z (Count gpu_info))
            <$> (node_gpus : gmap string AcceleratorModelInfo) !! gpu_model)
    (items (default ∅ (cluster_inventory go_data))).

Section Wrapper.

(** Python's [float] on a string, [None] for [ValueError].  The strings
    that [float] reads as [nan] or an infinity have no rational value and are
    outside this embedding. *)
Variable float : string -> option Q.

(** ** [calculate_max_service_rate] *)

Definition calculate_max_service_rate (acc_profile : AcceleratorProfile) : Q :=
  match float (default "1.0" (alpha acc_profile)) with
  | None => 1%Q
  | Some alpha =>
      match float (default "1.0" (beta acc_profile)) with
      | None => 1%Q
      | Some beta =>
          match
            match atTokens acc_profile with
            | Some n => Some (inject_Z n)
            | None => float "100"
            end
          with
          | None => 1%Q
          | Some at_tokens =>
              let d := (alpha + beta * at_tokens)%Q in
              if Qeq_bool d 0 then 1%Q
              else py_max ((1 / d) * 1000)%Q [(1 # 10)%Q]
          end
      end
  end.

(** ** [extract_variants_from_go] *)

Definition enumerate {A} (l : list A) : list (nat * A) :=
  zip (seq 0 (length l)) l.

Definition setup_id (i : nat) (acc_profile : AcceleratorProfile) : string :=
  acc acc_profile +:+ "-" +:+ pretty i.

Definition variant_data (i : nat) (acc_profile : AcceleratorProfile)
  : VariantData :=
  mkVariantData (setup_id i acc_profile) (acc acc_profile)
    (inject_Z (accCount acc_profile)) "inference" "default"
    (calculate_max_service_rate acc_profile)
    (inject_Z (maxBatchSize acc_profile)).

Definition model_setups (va : VariantAutoscaling) : gmap string VariantData :=
  foldl (fun model_setups '(i, acc_profile) =>
           <[setup_id i acc_profile := variant_data i acc_profile]>
             model_setups)
    ∅ (enumerate (spec_accelerators va)).

Definition extract_variants_from_go (go_data : GoData)
  : odict (gmap string VariantData) :=
  foldl (fun variants_data va =>
           if decide (size (model_setups va) = 0%nat) then variants_data
           else setitem (spec_modelID va) (model_setups va) variants_data)
    [] (default [] (variant_autoscalings go_data)).

(** The setups that a [VariantAutoscaling] contributes, if any. *)
Definition setups_of (va : VariantAutoscaling)
  : option (gmap string VariantData) :=
  if decide (size (model_setups va) = 0%nat) then None
  else Some (model_setups va).

(** ** [extract_gpu_costs_from_config] *)

Definition extract_gpu_costs_from_config (go_data : GoData) : gmap string Q :=
  foldl (fun gpu_cost '(acc_name, acc_properties) =>
           let cost_str :=
             default "0.0" ((acc_properties : gmap string string) !! "cost") in
           match float cost_str with
           | Some cost => <[acc_name := cost]> gpu_cost
           | None => <[acc_name := 0%Q]> gpu_cost
           end)
    ∅ (items (default ∅ (accelerator_config go_data))).

(** ** [transform_go_input_to_python] *)

Definition transform_go_input_to_python (go_data : GoData) : PythonInput :=
  mkPythonInput
    (extract_variants_from_go go_data)
    (extract_service_rates_from_analysis go_data)
    (extract_gpu_limits_from_inventory go_data)
    (extract_gpu_costs_from_config go_data)
    (Some []) (Some ∅) (Some ∅) (Some ∅).

End Wrapper.

(** ** [run_optimization] *)

(** The guard that converts raw dictionaries reads the first setup of the
    first model; the setups here are [VariantData] already, so that the
    guard converts nothing, and raises when the first model has no setup. *)
Definition first_setup (variants_data : odict (gmap string VariantData))
  : attempt unit :=
  match variants_data with
  | [] => Done tt
  | (_, first_model) :: _ =>
      match values first_model with
      | [] => Failed IndexError
      | _ :: _ => Done tt
      end
  end.

(** The arguments of the optimizer call: [scale_to_zero], [min_replicas] and
    [max_replicas] default to empty, [deployed_instances] to [None];
    [change_penalty] and [homogeneous] are not passed. *)
Definition optimizer_call (python_input : PythonInput) : Args :=
  mkArgs
    (to_dict (input_variants_data python_input))
    (input_required_service_rates python_input)
    (input_gpu_limits python_input)
    (input_gpu_cost python_input)
    (default [] (input_scale_to_zero python_input))
    (input_deployed_instances python_input)
    0%Q false
    (default ∅ (input_max_replicas python_input))
    (default ∅ (input_min_replicas python_input)).

Definition run_optimization (solve : Model -> option assignment)
    (python_input : PythonInput) : attempt OptimizationResult :=
  match first_setup (input_variants_data python_input) with
  | Failed e => Failed e
  | Done _ =>
      match optimize solve (optimizer_call python_input) with
      | Return result => Done result
      | Raise e => Failed (OptimizerError e)
      end
  end.

(** ** [transform_python_output_for_go] *)

(** The loop over the setups of a model: the replicas are added up, the
    accelerator is the first type that is not the empty string. *)
Definition model_allocation (model_data : OptimizationResultsInstances)
  : Z * string :=
  foldl (fun '(total_replicas, accelerator) '(setup_id, instance_data) =>
           ((total_replicas + InstancesData.instance_num instance_data)%Z,
            if decide (accelerator = "")
            then InstancesData.gpu_type instance_data
            else accelerator))
    (0%Z, "") (items (requiredInstances model_data)).

(** The allocation that a [VariantAutoscaling] is given, if any. *)
Definition allocation_of (opt_result : option OptimizationResult)
    (va : VariantAutoscaling) : option OptimizedAlloc :=
  model_data ← opt_result ≫= (fun r => models_data r !! spec_modelID va);
  if decide (0 < (model_allocation model_data).1)%Z
  then Some (mkOptimizedAlloc (model_allocation model_data).2
               (model_allocation model_data).1)
  else None.

(** One round of the loop over the [VariantAutoscaling] objects.  A result
    that is [None] or has no [models_data] has no model to find. *)
Definition allocate (opt_result : option OptimizationResult)
    (optimized_allocations : gmap string OptimizedAlloc)
    (va : VariantAutoscaling) : gmap string OptimizedAlloc :=
  match opt_result ≫= (fun r => models_data r !! spec_modelID va) with
  | Some model_data =>
      let '(total_replicas, accelerator) := model_allocation model_data in
      if decide (0 < total_replicas)%Z
      then <[metadata_name va := mkOptimizedAlloc accelerator total_replicas]>
             optimized_allocations
      else optimized_allocations
  | None => optimized_allocations
  end.

(** The raw result keeps every field of the named tuples: it is the result
    itself. *)
Definition transform_python_output_for_go
    (opt_result : option OptimizationResult)
    (go_variant_autoscalings : list VariantAutoscaling) : GoOutput :=
  mkGoOutput
    (foldl (allocate opt_result) ∅ go_variant_autoscalings)
    opt_result
    true.

(** ** [main], from the loaded input to the output that is written *)

Definition error_output : GoOutput := mkGoOutput ∅ None false.

Definition main (float : string -> option Q)
    (solve : Model -> option assignment) (go_data : GoData) : GoOutput :=
  match run_optimization solve (transform_go_input_to_python float go_data) with
  | Done optimization_result =>
      transform_python_output_for_go (Some optimization_result)
        (default [] (variant_autoscalings go_data))
  | Failed _ => error_output
  end.

(** ** A concrete input of the controller

    One [VariantAutoscaling] for model [m] with one profile on A100, a demand
    of 4 + 6 requests per second, two nodes with two A100 each, and a cost of
    1 per A100. *)

Definition float_table (s : string) : option Q :=
  if decide (s = "1.0") then Some 1%Q
  else if decide (s = "0.0") then Some 0%Q
  else if decide (s = "100") then Some 100%Q
  else None.

Definition go_profile : AcceleratorProfile :=
  mkAcceleratorProfile "A100" 1 (Some "1.0") (Some "1.0") (Some 99%Z) 4.

Definition go_va : VariantAutoscaling :=
  mkVariantAutoscaling "va-m" "default" "m" [go_profile].

Definition go_analysis : ModelAnalyzeResponse :=
  mkModelAnalyzeResponse
    (Some {[ "A100" := mkAllocationData (Some 4%Q) (Some 6%Q) ]}).

Definition go_example : GoData :=
  mkGoData
    (Some [go_va])
    (Some {[ "m" := go_analysis ]})
    (Some (list_to_map
             [("node1", {[ "A100" := mkAcceleratorModelInfo (Some 2%Z) ]});
              ("node2", {[ "A100" := mkAcceleratorModelInfo (Some 2%Z) ]})]))
    (Some {[ "A100" := {[ "cost" := "1.0" ]} ]}).

Definition go_call : Args :=
  optimizer_call (transform_go_input_to_python float_table go_example).

Definition go_solution : assignment := fun x =>
  match x with
  | eta_var "m" "A100-0" => 1%Q
  | used_gpu_var "A100" => 1%Q
  | _ => 0%Q
  end.
(** * Facts about the embedding *)

(** ** Numbers *)

Lemma is_integer_inject_Z (z : Z) : is_integer (inject_Z z).
Proof. unfold is_integer. now rewrite Qfloor_Z. Qed.

Lemma is_integerb_sound (q : Q) : is_integerb q = true -> is_integer q.
Proof. apply Qeq_bool_eq. Qed.

Lemma py_round_integer (q : Q) : is_integer q -> py_round q = Qfloor q.
Proof.
  unfold is_integer, py_round. intros Hq. cbv zeta.
  assert (Hlt : (q - inject_Z (Qfloor q) < 1 # 2)%Q) by (rewrite Hq; lra).
  now rewrite (proj1 (Qlt_alt _ _) Hlt).
Qed.

Lemma py_round_inject_Z (z : Z) : py_round (inject_Z z) = z.
Proof.
  rewrite py_round_integer by apply is_integer_inject_Z. apply Qfloor_Z.
Qed.

Lemma inject_py_round (q : Q) :
  is_integer q -> (inject_Z (py_round q) == q)%Q.
Proof. intros Hq. now rewrite py_round_integer. Qed.

Lemma sumQ_ext {A} (f g : A -> Q) (l : list A) :
  (forall x, x ∈ l -> (f x == g x)%Q) ->
  (sumQ (f <$> l) == sumQ (g <$> l))%Q.
Proof.
  induction l as [|x l IH]; intros Hfg; [reflexivity|].
  unfold sumQ in *. simpl.
  rewrite (Hfg x) by constructor.
  rewrite IH; [reflexivity|]. intros y Hy. apply Hfg. now constructor.
Qed.

Lemma eval_Sum (σ : assignment) (es : list expr) :
  eval σ (Sum es) = sumQ (eval σ <$> es).
Proof.
  simpl. induction es as [|e es IH]; [reflexivity|].
  unfold sumQ in *. simpl. now rewrite IH.
Qed.

(** ** Exceptions and comprehensions *)

Lemma outcome_bind_Return {A B} (f : A -> outcome B) (x : outcome A) (b : B) :
  x ≫= f = Return b -> exists v, x = Return v /\ f v = Return b.
Proof. destruct x as [v|e]; [eauto|discriminate]. Qed.

Lemma getitem_Return {K V} `{Countable K} (d : gmap K V) (k : K) (v : V) :
  getitem d k = Return v <-> d !! k = Some v.
Proof.
  unfold getitem. destruct (d !! k); split; intros Heq;
    try discriminate; congruence.
Qed.

Lemma comprehension_body {A B} (body : A -> outcome (list B)) l r x :
  comprehension body l = Return r -> x ∈ l ->
  exists bs, body x = Return bs /\ forall b, b ∈ bs -> b ∈ r.
Proof.
  revert r. induction l as [|y l IH]; simpl; intros r Hr Hx.
  - inversion Hx.
  - apply outcome_bind_Return in Hr as (bs & Hbs & Hr).
    apply outcome_bind_Return in Hr as (r' & Hr' & Hr).
    injection Hr as <-.
    apply elem_of_cons in Hx as [->|Hx].
    + exists bs. split; [done|]. intros b Hb. apply elem_of_app. now left.
    + destruct (IH _ Hr' Hx) as (bs' & Hbs' & Hin).
      exists bs'. split; [done|]. intros b Hb. apply elem_of_app. right. auto.
Qed.

Lemma elem_of_comprehension {A B} (body : A -> outcome (list B)) l r b :
  comprehension body l = Return r -> b ∈ r ->
  exists x bs, x ∈ l /\ body x = Return bs /\ b ∈ bs.
Proof.
  revert r. induction l as [|y l IH]; simpl; intros r Hr Hb.
  - injection Hr as <-. inversion Hb.
  - apply outcome_bind_Return in Hr as (bs & Hbs & Hr).
    apply outcome_bind_Return in Hr as (r' & Hr' & Hr).
    injection Hr as <-.
    apply elem_of_app in Hb as [Hb|Hb].
    + exists y, bs. split; [constructor|done].
    + destruct (IH _ Hr' Hb) as (x & bs' & Hx & Hbs' & Hin).
      exists x, bs'. split; [now constructor|done].
Qed.

Lemma comprehension_pure {A B} (body : A -> outcome (list B))
    (g : A -> list B) l :
  (forall x, x ∈ l -> body x = Return (g x)) ->
  comprehension body l = Return (l ≫= g).
Proof.
  induction l as [|x l IH]; intros Hg; [reflexivity|].
  simpl. rewrite (Hg x) by constructor. simpl.
  rewrite IH; [reflexivity|]. intros y Hy. apply Hg. now constructor.
Qed.

Lemma comprehension_map {A B} (body : A -> outcome (list B))
    (g : A -> B) l :
  (forall x, x ∈ l -> body x = Return [g x]) ->
  comprehension body l = Return (g <$> l).
Proof.
  induction l as [|x l IH]; intros Hg; [reflexivity|].
  simpl. rewrite (Hg x) by constructor. simpl.
  rewrite IH; [reflexivity|]. intros y Hy. apply Hg. now constructor.
Qed.

(** ** Dictionaries *)

Lemma elem_of_items {K V} `{Countable K} (d : gmap K V) k v :
  (k, v) ∈ items d <-> d !! k = Some v.
Proof. apply elem_of_map_to_list. Qed.

Lemma elem_of_keys {K V} `{Countable K} (d : gmap K V) k :
  k ∈ keys d <-> is_Some (d !! k).
Proof.
  unfold keys. rewrite list_elem_of_fmap. split.
  - intros ([k' v] & -> & Hkv). apply elem_of_map_to_list in Hkv. eauto.
  - intros [v Hv]. exists (k, v). split; [done|].
    now apply elem_of_map_to_list.
Qed.


Lemma var_dict_lookup {K} `{Countable K} (ks : list K) (name : K -> var) k :
  var_dict ks name !! k = if decide (k ∈ ks) then Some (name k) else None.
Proof.
  unfold var_dict. induction ks as [|k' ks IH].
  - rewrite fmap_nil, list_to_map_nil, lookup_empty.
    destruct (decide (k ∈ [])) as [Hin|Hin]; [inversion Hin|reflexivity].
  - rewrite fmap_cons, list_to_map_cons. simpl.
    destruct (decide (k' = k)) as [->|Hne].
    + rewrite lookup_insert_eq.
      destruct (decide (k ∈ k :: ks)) as [Hin|Hin]; [reflexivity|].
      exfalso. apply Hin. constructor.
    + rewrite lookup_insert_ne by done. rewrite IH.
      destruct (decide (k ∈ ks)) as [Hin|Hin];
        destruct (decide (k ∈ k' :: ks)) as [Hin'|Hin']; try reflexivity.
      * exfalso. apply Hin'. now constructor.
      * exfalso. apply elem_of_cons in Hin' as [?|?]; congruence.
Qed.

Lemma dict_comprehension_lookup {K A B} `{Countable K}
    (f : K -> A -> outcome B) (d : gmap K A) (d' : gmap K B) k :
  dict_comprehension f d = Return d' ->
  match d !! k with
  | Some v => exists b, f k v = Return b /\ d' !! k = Some b
  | None => d' !! k = None
  end.
Proof.
  unfold dict_comprehension. intros Hd.
  apply outcome_bind_Return in Hd as (l & Hl & Hd). injection Hd as <-.
  assert (Hfst : l.*1 = (map_to_list d).*1).
  { clear k. revert l Hl. generalize (map_to_list d) as kvs.
    induction kvs as [|[k v] kvs IH]; simpl; intros l Hl.
    - now injection Hl as <-.
    - apply outcome_bind_Return in Hl as (bs & Hbs & Hl).
      apply outcome_bind_Return in Hbs as (b & Hb & Hbs). injection Hbs as <-.
      apply outcome_bind_Return in Hl as (r & Hr & Hl). injection Hl as <-.
      simpl. f_equal. now apply IH. }
  destruct (d !! k) as [v|] eqn:Hk.
  - apply elem_of_map_to_list in Hk.
    destruct (comprehension_body _ _ _ _ Hl Hk) as (bs & Hbs & Hin).
    apply outcome_bind_Return in Hbs as (b & Hb & Hbs). injection Hbs as <-.
    exists b. split; [done|].
    apply elem_of_list_to_map_1.
    + rewrite Hfst. apply NoDup_fst_map_to_list.
    + apply Hin. constructor.
  - apply not_elem_of_list_to_map_1. rewrite Hfst.
    intros ([k' v] & -> & Hkv)%list_elem_of_fmap.
    apply elem_of_map_to_list in Hkv. simpl in Hk. congruence.
Qed.

(** ** The modelling monad *)

Lemma M_bind_Return {A B} (x : M A) (f : A -> M B) mdl b mdl' :
  (x ≫= f) mdl = Return (b, mdl') ->
  exists v mdl1, x mdl = Return (v, mdl1) /\ f v mdl1 = Return (b, mdl').
Proof.
  unfold mbind, M_bind. destruct (x mdl) as [[v mdl1]|e]; [eauto|discriminate].
Qed.

Lemma lift_Return {A} (o : outcome A) mdl v mdl' :
  lift o mdl = Return (v, mdl') -> o = Return v /\ mdl' = mdl.
Proof. unfold lift. destruct o; [|discriminate]. now intros [= -> ->]. Qed.

Lemma M_ret_Return {A} (x : A) mdl v mdl' :
  mret (M := M) x mdl = Return (v, mdl') -> v = x /\ mdl' = mdl.
Proof. now intros [= -> ->]. Qed.

Lemma for_each_add_sos1 (a : Args) (eta : gmap (string * string) var) l :
  forall mdl mdl',
  for_each (fun model_id =>
      vars ← lift (sos1_vars a eta model_id); add_sos1 vars) l mdl
    = Return (tt, mdl') ->
  exists sets,
    Forall2 (fun model_id vars => sos1_vars a eta model_id = Return vars)
      l sets /\
    mdl' = mkModel (integer_vars mdl) (continuous_vars mdl) (constraints mdl)
             (sos1_sets mdl ++ sets) (objective mdl).
Proof.
  induction l as [|m l IH]; intros mdl mdl' Hrun.
  - apply M_ret_Return in Hrun as [_ ->]. exists []. split; [constructor|].
    rewrite app_nil_r. now destruct mdl.
  - simpl in Hrun. apply M_bind_Return in Hrun as ([] & mdl1 & Hm & Hrun).
    apply M_bind_Return in Hm as (vars & mdl2 & Hvars & Hadd).
    apply lift_Return in Hvars as [Hvars ->].
    injection Hadd as <-.
    destruct (IH _ _ Hrun) as (sets & Hsets & ->).
    exists (vars :: sets). split; [now constructor|].
    simpl. now rewrite <- app_assoc.
Qed.

(** ** Inversion of a successful encoding *)

Lemma encode_change_penalty_Return a mdl delta mdl' :
  encode_change_penalty a (eta_dict a) mdl = Return (delta, mdl') ->
  exists dvars cts,
    (forall E, e_delta E = delta -> e_delta_vars E = dvars ->
               e_change E = cts -> change_encoded a E) /\
    mdl' = mkModel (integer_vars mdl) (continuous_vars mdl ++ dvars)
             (constraints mdl ++ tag "instance_change_ct" cts)
             (sos1_sets mdl) (objective mdl).
Proof.
  unfold encode_change_penalty, change_encoded. intros Hrun.
  destruct (Qlt_le_dec 0 (change_penalty a)) as [Hcp|Hcp].
  - apply M_bind_Return in Hrun as (deployed & m1 & Hd & Hrun).
    apply lift_Return in Hd as [Hd ->].
    apply M_bind_Return in Hrun as (dkeys & m1 & Hk & Hrun).
    apply lift_Return in Hk as [Hk ->].
    apply M_bind_Return in Hrun as (dl & m1 & Hdl & Hrun).
    injection Hdl as <- <-.
    apply M_bind_Return in Hrun as (rates & m1 & Hr & Hrun).
    apply lift_Return in Hr as [Hr ->].
    apply M_bind_Return in Hrun as (cts & m1 & Hc & Hrun).
    apply lift_Return in Hc as [Hc ->].
    apply M_bind_Return in Hrun as ([] & m1 & Ha & Hrun).
    injection Ha as <-. injection Hrun as <- <-.
    exists (delta_name <$> dkeys), cts. split; [|reflexivity].
    intros E HE1 HE2 HE3. exists deployed, dkeys, rates.
    unfold deployed_dict in Hd. destruct (deployed_instances a); [|discriminate].
    injection Hd as ->. rewrite HE1, HE2, HE3. repeat split; auto.
  - injection Hrun as <- <-. exists [], []. split; [auto|].
    unfold tag. simpl. rewrite !app_nil_r. now destruct mdl.
Qed.

Lemma encode_Return a eta used_gpu mdl :
  encode a new_model = Return ((eta, used_gpu), mdl) ->
  eta = eta_dict a /\ used_gpu = used_gpu_dict a /\
  exists E, encodes a E /\ mdl = model_of a E.
Proof.
  unfold encode. intros Hrun.
  apply M_bind_Return in Hrun as (eta' & m1 & Heta & Hrun).
  injection Heta as <- <-. fold (eta_dict a) in Hrun.
  apply M_bind_Return in Hrun as ([] & m1 & Hmax & Hrun).
  assert (exists c_max, (if decide (max_replicas a = ∅) then c_max = []
            else max_replicas_ct a (eta_dict a) = Return c_max) /\
          m1 = mkModel (eta_name <$> eta_keys a) [] (tag "max_replicas_ct" c_max) [] None)
    as (c_max & Hc_max & ->).
  { destruct (decide (max_replicas a = ∅)).
    - injection Hmax as <-. now exists [].
    - apply M_bind_Return in Hmax as (cts & m2 & Hc & Hmax).
      apply lift_Return in Hc as [Hc ->]. injection Hmax as <-. now exists cts. }
  apply M_bind_Return in Hrun as ([] & m1 & Hmin & Hrun).
  assert (exists c_min, (if decide (min_replicas a = ∅) then c_min = []
            else min_replicas_ct a (eta_dict a) = Return c_min) /\
          m1 = mkModel (eta_name <$> eta_keys a) []
                 (tag "max_replicas_ct" c_max ++ tag "min_replicas_ct" c_min) [] None)
    as (c_min & Hc_min & ->).
  { destruct (decide (min_replicas a = ∅)).
    - injection Hmin as <-. exists []. split; [done|]. unfold tag at 2. simpl. now rewrite app_nil_r.
    - apply M_bind_Return in Hmin as (cts & m2 & Hc & Hmin).
      apply lift_Return in Hc as [Hc ->]. injection Hmin as <-. now exists cts. }
  apply M_bind_Return in Hrun as ([] & m1 & Hsos & Hrun).
  assert (exists sets, (if homogeneous a
            then Forall2 (fun model_id vars =>
                    sos1_vars a (eta_dict a) model_id = Return vars)
                   (keys (required_rates a)) sets
            else sets = []) /\
          m1 = mkModel (eta_name <$> eta_keys a) []
                 (tag "max_replicas_ct" c_max ++ tag "min_replicas_ct" c_min) sets None)
    as (sets & Hsets & ->).
  { destruct (homogeneous a).
    - apply for_each_add_sos1 in Hsos as (sets & Hsets & ->). now exists sets.
    - injection Hsos as <-. now exists []. }
  apply M_bind_Return in Hrun as (c_inst & m1 & Hc_inst & Hrun).
  apply lift_Return in Hc_inst as [Hc_inst ->].
  apply M_bind_Return in Hrun as ([] & m1 & Hadd & Hrun). injection Hadd as <-.
  apply M_bind_Return in Hrun as (c_rate & m1 & Hc_rate & Hrun).
  apply lift_Return in Hc_rate as [Hc_rate ->].
  apply M_bind_Return in Hrun as ([] & m1 & Hadd & Hrun). injection Hadd as <-.
  apply M_bind_Return in Hrun as (c_lim & m1 & Hc_lim & Hrun).
  apply lift_Return in Hc_lim as [Hc_lim ->].
  apply M_bind_Return in Hrun as ([] & m1 & Hadd & Hrun). injection Hadd as <-.
  apply M_bind_Return in Hrun as (delta & m1 & Hdelta & Hrun).
  apply encode_change_penalty_Return in Hdelta as (dvars & c_change & Hchange & ->).
  apply M_bind_Return in Hrun as (ug & m1 & Hug & Hrun).
  injection Hug as <- <-. fold (used_gpu_dict a) in Hrun.
  apply M_bind_Return in Hrun as (c_int & m1 & Hc_int & Hrun).
  apply lift_Return in Hc_int as [Hc_int ->].
  apply M_bind_Return in Hrun as ([] & m1 & Hadd & Hrun). injection Hadd as <-.
  apply M_bind_Return in Hrun as (costs & m1 & Hcosts & Hrun).
  apply lift_Return in Hcosts as [Hcosts ->].
  apply M_bind_Return in Hrun as ([] & m1 & Hadd & Hrun). injection Hadd as <-.
  injection Hrun as <- <- <-.
  split; [reflexivity|]. split; [reflexivity|].
  exists (mkEncoding c_max c_min sets c_inst c_rate c_lim delta dvars c_change c_int costs).
  split.
  - constructor; simpl; auto.
  - unfold model_of, objective_of. simpl. rewrite <- !app_assoc. reflexivity.
Qed.

(** ** The handles of [eta] and [used_gpu] *)

Lemma elem_of_eta_keys a m s :
  (m, s) ∈ eta_keys a <-> is_Some (variant_of a m s).
Proof.
  unfold eta_keys, variant_of. rewrite list_elem_of_bind. split.
  - intros ([m' setups] & Hin & Hm). apply elem_of_items in Hm.
    apply list_elem_of_fmap in Hin as (s' & [= -> ->] & Hs).
    apply elem_of_keys in Hs. rewrite Hm. exact Hs.
  - intros [sd Hsd]. destruct (variants a !! m) as [setups|] eqn:Hm; [|discriminate].
    simpl in Hsd. exists (m, setups). split; [|now apply elem_of_items].
    apply list_elem_of_fmap. exists s. split; [done|]. apply elem_of_keys. eauto.
Qed.

Lemma getitem_eta a m s sd :
  variant_of a m s = Some sd ->
  getitem (eta_dict a) (m, s) = Return (eta_var m s).
Proof.
  intros Hsd. apply getitem_Return. unfold eta_dict. rewrite var_dict_lookup.
  rewrite decide_True; [done|]. apply elem_of_eta_keys. eauto.
Qed.

Lemma getitem_eta_inv a m s x :
  getitem (eta_dict a) (m, s) = Return x ->
  x = eta_var m s /\ is_Some (variant_of a m s).
Proof.
  intros Hx. apply getitem_Return in Hx. unfold eta_dict in Hx.
  rewrite var_dict_lookup in Hx.
  destruct (decide ((m, s) ∈ eta_keys a)) as [Hin|]; [|discriminate].
  apply elem_of_eta_keys in Hin. injection Hx as <-. split; done.
Qed.

Lemma variant_of_items a m setups s sd :
  variants a !! m = Some setups -> (s, sd) ∈ items setups ->
  variant_of a m s = Some sd.
Proof.
  intros Hm Hs. apply elem_of_items in Hs. unfold variant_of. now rewrite Hm.
Qed.

Lemma getitem_used_gpu a t :
  is_Some (setups_per_gpu a !! t) ->
  getitem (used_gpu_dict a) t = Return (used_gpu_var t).
Proof.
  intros Ht. apply getitem_Return. unfold used_gpu_dict.
  rewrite var_dict_lookup. rewrite decide_True; [done|]. now apply elem_of_keys.
Qed.

Lemma setups_per_gpu_lookup a t l :
  setups_per_gpu a !! t = Some l <->
  is_Some (gpu_limits a !! t) /\ l = setups_of_type a t /\ l <> [].
Proof.
  unfold setups_per_gpu. rewrite map_lookup_filter_Some, map_lookup_imap.
  destruct (gpu_limits a !! t) as [lim|]; simpl; split.
  - intros [[= <-] Hne]. eauto.
  - intros (_ & -> & Hne). eauto.
  - intros [[=] _].
  - intros ([? [=]] & _).
Qed.

Lemma elem_of_setups_of_type a t m s n :
  (m, s, n) ∈ setups_of_type a t <->
  exists sd, variant_of a m s = Some sd /\ gpu_type sd = t /\ n = gpu_number sd.
Proof.
  unfold setups_of_type, variant_of. rewrite list_elem_of_bind. split.
  - intros ([m' setups] & Hin & Hm). apply elem_of_items in Hm.
    apply list_elem_of_bind in Hin as ([s' sd] & Hin & Hs).
    apply elem_of_items in Hs.
    destruct (decide (gpu_type sd = t)) as [Ht|]; [|inversion Hin].
    apply list_elem_of_singleton in Hin as [= -> -> ->].
    exists sd. rewrite Hm. auto.
  - intros (sd & Hsd & Ht & ->).
    destruct (variants a !! m) as [setups|] eqn:Hm; [|discriminate].
    simpl in Hsd. exists (m, setups). split; [|now apply elem_of_items].
    apply list_elem_of_bind. exists (s, sd). split; [|now apply elem_of_items].
    rewrite decide_True by done. constructor.
Qed.

(** ** Inversion of a call *)

Lemma encoded_model_Return a mdl :
  encoded_model a = Return mdl <->
  exists eta used_gpu, encode a new_model = Return ((eta, used_gpu), mdl).
Proof.
  unfold encoded_model. split.
  - intros Hrun. apply outcome_bind_Return in Hrun as ([[eta ug] mdl'] & He & Hr).
    injection Hr as <-. eauto.
  - intros (eta & ug & ->). reflexivity.
Qed.

Lemma encoded_model_encodes a mdl :
  encoded_model a = Return mdl ->
  exists E, encodes a E /\ mdl = model_of a E /\
    encode a new_model = Return ((eta_dict a, used_gpu_dict a), mdl).
Proof.
  intros (eta & ug & Hrun)%encoded_model_Return.
  destruct (encode_Return _ _ _ _ Hrun) as (-> & -> & E & HE & ->). eauto.
Qed.

Lemma optimize_solved solve a mdl σ :
  encoded_model a = Return mdl -> solve mdl = Some σ ->
  optimize solve a = assemble a (eta_dict a) (used_gpu_dict a) σ.
Proof.
  intros (E & _ & _ & Hrun)%encoded_model_encodes Hsolve.
  unfold optimize, get_optimal_gpu_allocation.
  unfold mbind at 2. unfold M_bind. rewrite Hrun.
  unfold mbind at 2. unfold M_bind, mdl_solve. rewrite Hsolve.
  unfold lift. now destruct (assemble a (eta_dict a) (used_gpu_dict a) σ).
Qed.

Lemma optimize_no_solution solve a mdl :
  encoded_model a = Return mdl -> solve mdl = None ->
  optimize solve a = Return empty_result.
Proof.
  intros (E & _ & _ & Hrun)%encoded_model_encodes Hsolve.
  unfold optimize, get_optimal_gpu_allocation.
  unfold mbind at 2. unfold M_bind. rewrite Hrun.
  unfold mbind at 2. unfold M_bind, mdl_solve. now rewrite Hsolve.
Qed.

(** ** The result assembly *)

Lemma assemble_instances a σ res m s :
  assemble a (eta_dict a) (used_gpu_dict a) σ = Return res ->
  instance_of res m s =
    (fun sd => InstancesData.mk (py_round (σ (eta_var m s))) (gpu_type sd)
                 (gpu_number sd)) <$> variant_of a m s.
Proof.
  unfold assemble. intros Hrun.
  apply outcome_bind_Return in Hrun as (ipm & Hipm & Hrun).
  apply outcome_bind_Return in Hrun as (gpus & Hgpus & Hrun).
  injection Hrun as <-. unfold instance_of, variant_of. simpl.
  rewrite lookup_fmap.
  pose proof (dict_comprehension_lookup _ _ _ m Hipm) as Hm.
  destruct (variants a !! m) as [setups|] eqn:Hvm; simpl.
  - destruct Hm as (d & Hd & ->). simpl.
    pose proof (dict_comprehension_lookup _ _ _ s Hd) as Hs.
    destruct (setups !! s) as [sd|] eqn:Hvs; simpl.
    + destruct Hs as (i & Hi & ->). simpl. f_equal.
      apply outcome_bind_Return in Hi as (v & Hv & Hi). injection Hi as <-.
      apply getitem_Return in Hv. unfold get_solution_values in Hv.
      rewrite lookup_fmap in Hv. unfold eta_dict in Hv.
      rewrite var_dict_lookup in Hv.
      destruct (decide ((m, s) ∈ eta_keys a)); [|discriminate].
      now injection Hv as <-.
    + now rewrite Hs.
  - now rewrite Hm.
Qed.

Lemma assemble_models a σ res m :
  assemble a (eta_dict a) (used_gpu_dict a) σ = Return res ->
  is_Some (models_data res !! m) <-> is_Some (variants a !! m).
Proof.
  unfold assemble. intros Hrun.
  apply outcome_bind_Return in Hrun as (ipm & Hipm & Hrun).
  apply outcome_bind_Return in Hrun as (gpus & Hgpus & Hrun).
  injection Hrun as <-. simpl. rewrite lookup_fmap.
  pose proof (dict_comprehension_lookup _ _ _ m Hipm) as Hm.
  destruct (variants a !! m) as [setups|].
  - destruct Hm as (d & _ & ->). simpl. split; eauto.
  - rewrite Hm. simpl. split; intros [? [=]].
Qed.

Lemma assemble_diagnostics a σ res :
  assemble a (eta_dict a) (used_gpu_dict a) σ = Return res ->
  impossible_models res = [] /\ strange_models res = [] /\
  missing_models res = [] /\ impossible_instances res = ∅.
Proof.
  unfold assemble. intros Hrun.
  apply outcome_bind_Return in Hrun as (ipm & Hipm & Hrun).
  apply outcome_bind_Return in Hrun as (gpus & Hgpus & Hrun).
  now injection Hrun as <-.
Qed.

Lemma assemble_gpus a σ res t :
  assemble a (eta_dict a) (used_gpu_dict a) σ = Return res ->
  gpu_after_allocation res !! t =
    match keys (setups_per_gpu a) with
    | [] => gpu_limits a !! t
    | _ :: _ =>
        setups_per_gpu a !! t ≫= fun _ =>
        (fun limit => py_round (inject_Z limit - σ (used_gpu_var t)))
          <$> gpu_limits a !! t
    end.
Proof.
  unfold assemble. intros Hrun.
  apply outcome_bind_Return in Hrun as (ipm & Hipm & Hrun).
  apply outcome_bind_Return in Hrun as (gpus & Hgpus & Hrun).
  injection Hrun as <-. simpl.
  destruct (keys (setups_per_gpu a)) as [|t0 ts] eqn:Hkeys.
  - rewrite lookup_fmap. destruct (gpu_limits a !! t); simpl; [|done].
    now rewrite py_round_inject_Z.
  - pose proof (dict_comprehension_lookup _ _ _ t Hgpus) as Ht.
    unfold get_solution_values in Ht. rewrite lookup_fmap in Ht.
    unfold used_gpu_dict in Ht. rewrite var_dict_lookup in Ht.
    destruct (decide (t ∈ keys (setups_per_gpu a))) as [Hin|Hin]; simpl in Ht.
    + destruct Ht as (r & Hr & ->).
      apply elem_of_keys in Hin as [l Hl]. rewrite Hl. simpl.
      apply outcome_bind_Return in Hr as (limit & Hlim & Hr).
      apply getitem_Return in Hlim. rewrite Hlim. simpl. congruence.
    + rewrite Ht. destruct (setups_per_gpu a !! t) eqn:Hl; [|done].
      exfalso. apply Hin. apply elem_of_keys. eauto.
Qed.





(** ** What a solution of the encoded model satisfies *)

Lemma returns_plan_inv solve a σ res :
  returns_plan solve a σ res ->
  exists E, encodes a E /\ feasible (model_of a E) σ /\
    assemble a (eta_dict a) (used_gpu_dict a) σ = Return res.
Proof.
  intros (mdl & Henc & Hsolve & Hfeas & Hres).
  rewrite (optimize_solved _ _ _ _ Henc Hsolve) in Hres.
  apply encoded_model_encodes in Henc as (E & HE & -> & _). eauto.
Qed.

Lemma feasible_holds a E σ name c :
  feasible (model_of a E) σ ->
  (name, c) ∈ constraints (model_of a E) -> holds σ c.
Proof.
  intros Hfeas Hin. apply feasible_constraints in Hfeas.
  rewrite Forall_forall in Hfeas. exact (Hfeas _ Hin).
Qed.

Lemma elem_of_tag name c cts : c ∈ cts -> (name, c) ∈ tag name cts.
Proof. intros Hc. unfold tag. apply list_elem_of_fmap. eauto. Qed.

Lemma feasible_eta a E σ m s sd :
  feasible (model_of a E) σ -> variant_of a m s = Some sd ->
  (0 <= σ (eta_var m s))%Q /\ is_integer (σ (eta_var m s)).
Proof.
  intros Hfeas Hsd. apply feasible_integer in Hfeas.
  rewrite Forall_forall in Hfeas. apply Hfeas. simpl.
  apply elem_of_app. left. apply list_elem_of_fmap. exists (m, s).
  split; [done|]. apply elem_of_eta_keys. eauto.
Qed.


Lemma plan_replicas solve a σ res m s sd :
  returns_plan solve a σ res -> variant_of a m s = Some sd ->
  replicas res m s = py_round (σ (eta_var m s)) /\
  (inject_Z (replicas res m s) == σ (eta_var m s))%Q /\
  (0 <= replicas res m s)%Z.
Proof.
  intros (E & HE & Hfeas & Hres)%returns_plan_inv Hsd.
  destruct (feasible_eta _ _ _ _ _ _ Hfeas Hsd) as [Hpos Hint].
  assert (Hrep : replicas res m s = py_round (σ (eta_var m s))).
  { unfold replicas. rewrite (assemble_instances _ _ _ m s Hres), Hsd. done. }
  assert (Heq : (inject_Z (replicas res m s) == σ (eta_var m s))%Q)
    by (rewrite Hrep; now apply inject_py_round).
  repeat split; [done..|].
  rewrite Zle_Qle, Heq. exact Hpos.
Qed.

(** The terms of a sum over the setups of one model. *)
Lemma eta_terms a m setups (f : string -> VariantData -> var -> expr) :
  variants a !! m = Some setups ->
  comprehension (fun '(s, sd) =>
      x ← getitem (eta_dict a) (m, s); Return [f s sd x]) (items setups)
    = Return ((fun '(s, sd) => f s sd (eta_var m s)) <$> items setups).
Proof.
  intros Hm. apply comprehension_map. intros [s sd] Hs.
  now rewrite (getitem_eta _ _ _ _ (variant_of_items _ _ _ _ _ Hm Hs)).
Qed.

Lemma feasibleb_sound mdl σ : feasibleb mdl σ = true -> feasible mdl σ.
Proof.
  unfold feasibleb. rewrite !andb_true_iff, !forallb_forall.
  intros [[[Hint Hcont] Hcts] Hsos].
  constructor; apply Forall_forall.
  - intros x Hx%list_elem_of_In. specialize (Hint _ Hx).
    apply andb_true_iff in Hint as [Hpos Hint].
    split; [now apply Qle_bool_iff|now apply is_integerb_sound].
  - intros x Hx%list_elem_of_In. now apply Qle_bool_iff, Hcont.
  - intros [name c] Hc%list_elem_of_In. specialize (Hcts _ Hc).
    destruct c; now apply Qle_bool_iff.
  - intros vars Hv%list_elem_of_In. now apply Nat.leb_le, Hsos.
Qed.

(** ** Named constraints *)

Lemma filter_tag_same name cts :
  filter (fun nc : string * ct => nc.1 = name) (tag name cts) = tag name cts.
Proof.
  unfold tag. induction cts as [|c cts IH]; [reflexivity|].
  rewrite fmap_cons, filter_cons_True by reflexivity. now rewrite IH.
Qed.

Lemma filter_tag_other name name' cts :
  name' <> name ->
  filter (fun nc : string * ct => nc.1 = name) (tag name' cts) = [].
Proof.
  intros Hne. unfold tag. induction cts as [|c cts IH]; [reflexivity|].
  rewrite fmap_cons, filter_cons_False by (simpl; congruence). exact IH.
Qed.

Lemma tag_snd name cts : (tag name cts).*2 = cts.
Proof.
  unfold tag. induction cts as [|c cts IH]; [reflexivity|].
  rewrite !fmap_cons. simpl. now rewrite IH.
Qed.

Lemma named_min_instances a E :
  named "min_instances_ct" (model_of a E) = e_inst E.
Proof.
  unfold named, model_of. simpl constraints.
  rewrite !filter_app, filter_tag_same.
  rewrite !filter_tag_other by discriminate.
  simpl. rewrite app_nil_r. apply tag_snd.
Qed.


Lemma bind_filter {A B} (P : A -> Prop) `{forall x, Decision (P x)}
    (f : A -> B) (l : list A) :
  l ≫= (fun x => if decide (P x) then [f x] else []) = f <$> filter P l.
Proof.
  induction l as [|x l IH]; [reflexivity|].
  rewrite bind_cons, IH. destruct (decide (P x)).
  - now rewrite filter_cons_True.
  - now rewrite filter_cons_False.
Qed.

Lemma sumZ_values_default (d : gmap string (gmap string Z)) m :
  sumZ (values (default {["a" := 0%Z]} (d !! m))) =
  sumZ (values (default ∅ (d !! m))).
Proof.
  destruct (d !! m); [reflexivity|]. simpl. unfold values.
  now rewrite map_to_list_singleton, map_to_list_empty.
Qed.

Lemma eta_vars {B} a m setups (f : var -> B) :
  variants a !! m = Some setups ->
  comprehension (fun s => x ← getitem (eta_dict a) (m, s); Return [f x])
    (keys setups)
  = Return ((fun s => f (eta_var m s)) <$> keys setups).
Proof.
  intros Hm. apply comprehension_map. intros s [sd Hs]%elem_of_keys.
  rewrite (getitem_eta a m s sd); [reflexivity|].
  unfold variant_of. now rewrite Hm.
Qed.

Lemma min_instances_ct_Return a cts :
  min_instances_ct a (eta_dict a) = Return cts ->
  cts = (fun ms => min_one ms.1 ms.2) <$> forced_active a.
Proof.
  intros Hrun. unfold forced_active. rewrite <- bind_filter.
  unfold min_instances_ct in Hrun. erewrite comprehension_pure in Hrun.
  - injection Hrun as <-. reflexivity.
  - intros [m setups] Hm. simpl.
    destruct (comprehension_body _ _ _ _ Hrun Hm) as (bs & Hbs & _).
    apply elem_of_items in Hm.
    destruct (decide (m ∈ scale_to_zero a)) as [Hin|Hin].
    + rewrite decide_False by tauto. reflexivity.
    + unfold current_total. unfold deployed_dict in *.
      destruct (deployed_instances a) as [d|]; [|discriminate]. simpl.
      rewrite sumZ_values_default.
      destruct (decide (0 < sumZ (values (default ∅ (d !! m))))%Z).
      * rewrite decide_True by tauto.
        rewrite (eta_vars a m setups Var Hm). reflexivity.
      * rewrite decide_False by tauto. reflexivity.
Qed.

Lemma inject_sumZ {A} (f : A -> Z) (l : list A) :
  (inject_Z (sumZ (f <$> l)) == sumQ ((fun x => inject_Z (f x)) <$> l))%Q.
Proof.
  induction l as [|x l IH]; [reflexivity|].
  unfold sumZ, sumQ in *. simpl. rewrite inject_Z_plus, IH. reflexivity.
Qed.


(** ** The change-penalty block *)






(** ** SOS1 sets *)

Lemma filter_length_one {A} (f : A -> bool) (l : list A) x :
  x ∈ l -> f x = true -> (1 <= length (List.filter f l))%nat.
Proof.
  induction l as [|y l IH]; intros Hx Hfx; [inversion Hx|].
  simpl. apply elem_of_cons in Hx as [<-|Hx].
  - rewrite Hfx. simpl. lia.
  - specialize (IH Hx Hfx). destruct (f y); simpl; lia.
Qed.

Lemma filter_length_two {A} (f : A -> bool) (l : list A) x y :
  x ∈ l -> y ∈ l -> x <> y -> f x = true -> f y = true ->
  (2 <= length (List.filter f l))%nat.
Proof.
  induction l as [|z l IH]; intros Hx Hy Hne Hfx Hfy; [inversion Hx|].
  simpl. apply elem_of_cons in Hx as [<-|Hx];
    apply elem_of_cons in Hy as [<-|Hy].
  - congruence.
  - rewrite Hfx. simpl. pose proof (filter_length_one f l y Hy Hfy). lia.
  - rewrite Hfy. simpl. pose proof (filter_length_one f l x Hx Hfx). lia.
  - specialize (IH Hx Hy Hne Hfx Hfy). destruct (f z); simpl; lia.
Qed.

Lemma sos1_vars_Return a m vars :
  sos1_vars a (eta_dict a) m = Return vars ->
  exists setups,
    variants a !! m = Some setups /\ vars = eta_var m <$> keys setups.
Proof.
  unfold sos1_vars. intros Hrun.
  apply outcome_bind_Return in Hrun as (setups & Hm & Hrun).
  apply getitem_Return in Hm. exists setups. split; [done|].
  rewrite (eta_vars a m setups (fun x => x) Hm) in Hrun.
  injection Hrun as <-. reflexivity.
Qed.



(** ** The objective *)



Lemma elem_of_setups_per_gpu a t :
  is_Some (setups_per_gpu a !! t) <-> eligible a t.
Proof.
  unfold eligible. split.
  - intros [l Hl]. apply setups_per_gpu_lookup in Hl as (Hlim & -> & Hne).
    split; [done|].
    destruct (setups_of_type a t) as [|[[m s] n] l] eqn:Hl; [done|].
    assert (Hin : (m, s, n) ∈ setups_of_type a t) by (rewrite Hl; constructor).
    apply elem_of_setups_of_type in Hin as (sd & Hsd & Ht & _). eauto.
  - intros (Hlim & m & s & sd & Hsd & Ht).
    exists (setups_of_type a t). apply setups_per_gpu_lookup.
    split; [done|]. split; [done|].
    assert (Hin : (m, s, gpu_number sd) ∈ setups_of_type a t)
      by (apply elem_of_setups_of_type; eauto).
    intros Hnil. rewrite Hnil in Hin. inversion Hin.
Qed.






(** ** Changing the value of one variable *)






(** ** The variables of the constraints *)








Lemma gpu_terms_Return a t l :
  setups_per_gpu a !! t = Some l ->
  gpu_terms (eta_dict a) l =
    Return ((fun '(m, s, n) => Scale n (Var (eta_var m s))) <$> l).
Proof.
  intros Hl. apply setups_per_gpu_lookup in Hl as (_ & -> & _).
  apply comprehension_map. intros [[m s] n] Hin.
  apply elem_of_setups_of_type in Hin as (sd & Hsd & _).
  now rewrite (getitem_eta a m s sd Hsd).
Qed.


Lemma eval_gpu_terms a σ t :
  eval σ (Sum ((fun '(m, s, n) => Scale n (Var (eta_var m s)))
               <$> setups_of_type a t)) = gpu_load a σ t.
Proof.
  rewrite eval_Sum, <- list_fmap_compose. unfold gpu_load. f_equal.
  apply list_fmap_ext. now intros i [[m s] n] _.
Qed.



Lemma gpu_limit_ct_elem a cts t l limit :
  gpu_limit_ct a (eta_dict a) = Return cts ->
  setups_per_gpu a !! t = Some l -> gpu_limits a !! t = Some limit ->
  LeCt (Sum ((fun '(m, s, n) => Scale n (Var (eta_var m s))) <$> l))
    (Num (inject_Z limit)) ∈ cts.
Proof.
  intros Hrun Hl Hlim. apply elem_of_items in Hl as Hl'.
  destruct (comprehension_body _ _ _ _ Hrun Hl') as (bs & Hbs & Hsub).
  apply Hsub. rewrite (gpu_terms_Return a t l Hl) in Hbs.
  rewrite (proj2 (getitem_Return _ _ _) Hlim) in Hbs.
  simpl in Hbs. injection Hbs as <-. constructor.
Qed.

Lemma int_gpu_ct_Return a cts :
  int_gpu_ct a (eta_dict a) (used_gpu_dict a) = Return cts ->
  forall c, c ∈ cts <->
  exists t l,
    setups_per_gpu a !! t = Some l /\
    c = GeCt (Var (used_gpu_var t))
          (Sum ((fun '(m, s, n) => Scale n (Var (eta_var m s))) <$> l)).
Proof.
  intros Hrun c. split.
  - intros Hc.
    destruct (elem_of_comprehension _ _ _ _ Hrun Hc)
      as ([t l] & bs & Hl & Hbs & Hc').
    apply elem_of_items in Hl.
    rewrite (getitem_used_gpu a t) in Hbs by eauto.
    rewrite (gpu_terms_Return a t l Hl) in Hbs.
    simpl in Hbs. injection Hbs as <-.
    apply list_elem_of_singleton in Hc' as ->. eauto.
  - intros (t & l & Hl & ->). apply elem_of_items in Hl as Hl'.
    destruct (comprehension_body _ _ _ _ Hrun Hl') as (bs & Hbs & Hsub).
    apply Hsub. rewrite (getitem_used_gpu a t) in Hbs by eauto.
    rewrite (gpu_terms_Return a t l Hl) in Hbs.
    simpl in Hbs. injection Hbs as <-. constructor.
Qed.



(** ** Lowering one [used_gpu] variable *)


Lemma gpu_load_update a σ t t' v :
  gpu_load a (update σ (used_gpu_var t) v) t' = gpu_load a σ t'.
Proof.
  reflexivity.
Qed.






Lemma consumed_gpu_load solve a σ res t :
  returns_plan solve a σ res -> (consumed a res t == gpu_load a σ t)%Q.
Proof.
  intros Hplan. unfold consumed, gpu_load. apply sumQ_ext.
  intros [[m s] n] Hin.
  apply elem_of_setups_of_type in Hin as (sd & Hsd & _).
  destruct (plan_replicas _ _ _ _ m s sd Hplan Hsd) as (_ & -> & _).
  reflexivity.
Qed.


(** * The properties

    First the unit test of the repository, replayed on the embedding: the
    solutions it expects are solutions of the two encoded models, and the
    results assembled from them are the ones it asserts. *)

Example test_call_1_result :
  gpu_after_allocation (result_of (answer test_solution_1) test_call_1) =
    list_to_map [("A100", 3%Z); ("A100+", 10%Z); ("H100", 7%Z)] /\
  feasibleb (model_of_call test_call_1) test_solution_1 = true /\
  instance_of (result_of (answer test_solution_1) test_call_1)
    "mistral" "mistral-h100" = Some (InstancesData.mk 2 "H100" 1).
Proof. repeat split; vm_compute; reflexivity. Qed.

Example test_call_2_result :
  gpu_after_allocation (result_of (answer test_solution_2) test_call_2) =
    list_to_map [("A100", 9%Z); ("A100+", 10%Z); ("H100", 4%Z)] /\
  feasibleb (model_of_call test_call_2) test_solution_2 = true /\
  instance_of (result_of (answer test_solution_2) test_call_2)
    "google-flan-xl" "flan-h100" = Some (InstancesData.mk 1 "H100" 3).
Proof. repeat split; vm_compute; reflexivity. Qed.

(** C1. Demand satisfaction: when a call returns a plan, every model of
    [required_rates] is in the catalog and the service rate sustained by its
    reported replicas, the sum of [max_service_rate] times the replica count
    over its setups, is at least its required rate. *)
Theorem demand_satisfaction solve a σ res m r :
  returns_plan solve a σ res ->
  required_rates a !! m = Some r ->
  exists setups,
    variants a !! m = Some setups /\ (r <= served_rate res m setups)%Q.
Proof.
  intros Hplan Hr.
  destruct (returns_plan_inv _ _ _ _ Hplan) as (E & HE & Hfeas & Hres).
  assert (Hin : m ∈ keys (required_rates a)) by (apply elem_of_keys; eauto).
  destruct (comprehension_body _ _ _ _ (enc_rate _ _ HE) Hin)
    as (bs & Hbs & Hsub).
  apply getitem_Return in Hr. rewrite Hr in Hbs. simpl in Hbs.
  destruct (variants a !! m) as [setups|] eqn:Hm;
    [|unfold getitem in Hbs; rewrite Hm in Hbs; discriminate].
  exists setups. split; [done|].
  rewrite (proj2 (getitem_Return _ _ _) Hm) in Hbs. simpl in Hbs.
  rewrite (eta_terms a m setups
             (fun _ sd x => Scale (max_service_rate sd) (Var x)) Hm) in Hbs.
  injection Hbs as <-.
  assert (Hc := fun H => feasible_holds a E σ "service_rate_ct" (LeCt (Num r)
    (Sum ((fun '(s, sd) => Scale (max_service_rate sd) (Var (eta_var m s)))
          <$> items setups))) Hfeas H).
  unfold holds in Hc. rewrite eval_Sum in Hc. change (eval σ (Num r)) with r in Hc.
  eapply Qle_trans; [apply Hc|].
  - simpl. rewrite !elem_of_app. do 3 right. left.
    apply elem_of_tag, Hsub. constructor.
  - unfold served_rate. rewrite <- list_fmap_compose.
    apply Qle_lteq. right. apply sumQ_ext. intros [s sd] Hs. simpl.
    destruct (plan_replicas _ _ _ _ m s sd Hplan) as (_ & -> & _);
      [eapply variant_of_items; eauto|reflexivity].
Qed.

Lemma demand_satisfaction_witness :
  exists setups,
    variants test_call_1 !! "mistral" = Some setups /\
    (15 <= served_rate (result_of (answer test_solution_1) test_call_1)
             "mistral" setups)%Q.
Proof.
  apply (demand_satisfaction (answer test_solution_1) test_call_1
           test_solution_1).
  - plan_by_computation feasibleb_sound.
  - vm_compute. reflexivity.
Defined.

(** C10. When the backend reports a solution, [models_data] has an entry for
    exactly the models of the catalog, and under each model an entry for
    exactly its setups, also those with 0 replicas: the entry of a pair
    holds the rounded value of its [eta] variable and the setup's
    [gpu_type] and [gpu_number] unchanged. *)
Theorem models_data_entries solve a mdl σ res m s :
  encoded_model a = Return mdl ->
  solve mdl = Some σ ->
  optimize solve a = Return res ->
  (is_Some (models_data res !! m) <-> is_Some (variants a !! m)) /\
  instance_of res m s =
    (fun sd => InstancesData.mk (py_round (σ (eta_var m s))) (gpu_type sd)
                 (gpu_number sd)) <$> variant_of a m s.
Proof.
  intros Henc Hsolve Hres.
  rewrite (optimize_solved _ _ _ _ Henc Hsolve) in Hres.
  split; [now apply (assemble_models a σ)|now apply assemble_instances].
Qed.

Lemma models_data_entries_witness :
  (is_Some (models_data (result_of (answer test_solution_1) test_call_1)
              !! "lama-80b") <->
   is_Some (variants test_call_1 !! "lama-80b")) /\
  instance_of (result_of (answer test_solution_1) test_call_1)
    "lama-80b" "lama80-a100+" =
    (fun sd => InstancesData.mk
                 (py_round (test_solution_1 (eta_var "lama-80b" "lama80-a100+")))
                 (gpu_type sd) (gpu_number sd))
    <$> variant_of test_call_1 "lama-80b" "lama80-a100+".
Proof.
  eapply (models_data_entries (answer test_solution_1) test_call_1).
  - vm_compute. reflexivity.
  - reflexivity.
  - vm_compute. reflexivity.
Defined.

(** C9. When the backend reports no solution, the call does not raise: it
    returns a result whose [gpu_after_allocation], [models_data] and four
    diagnostic fields are all empty. *)
Theorem no_solution_result solve a mdl :
  encoded_model a = Return mdl ->
  solve mdl = None ->
  exists res,
    optimize solve a = Return res /\
    gpu_after_allocation res = ∅ /\ models_data res = ∅ /\
    impossible_models res = [] /\ strange_models res = [] /\
    missing_models res = [] /\ impossible_instances res = ∅.
Proof.
  intros Henc Hsolve. exists empty_result.
  rewrite (optimize_no_solution _ _ _ Henc Hsolve). repeat split.
Qed.

Lemma no_solution_result_witness :
  exists res,
    optimize (fun _ => None) test_call_1 = Return res /\
    gpu_after_allocation res = ∅ /\ models_data res = ∅ /\
    impossible_models res = [] /\ strange_models res = [] /\
    missing_models res = [] /\ impossible_instances res = ∅.
Proof.
  eapply (no_solution_result (fun _ => None) test_call_1).
  - vm_compute. reflexivity.
  - reflexivity.
Defined.

(** Without a current layout the minimum-one comprehension raises as soon as
    one model of the catalog is outside [scale_to_zero]. *)
Lemma min_instances_needs_layout solve a m :
  deployed_instances a = None ->
  is_Some (variants a !! m) -> m ∉ scale_to_zero a ->
  exists e, optimize solve a = Raise e.
Proof.
  intros Hnone [setups Hm] Hs2z.
  destruct (optimize solve a) as [res|e] eqn:Hrun; [|eauto]. exfalso.
  unfold optimize in Hrun.
  apply outcome_bind_Return in Hrun as ([res' mdl'] & Hrun & _).
  unfold get_optimal_gpu_allocation in Hrun.
  apply M_bind_Return in Hrun as ([eta ug] & mdl & Henc & _).
  apply encode_Return in Henc as (_ & _ & E & HE & _).
  apply elem_of_items in Hm.
  destruct (comprehension_body _ _ _ _ (enc_inst _ _ HE) Hm) as (bs & Hbs & _).
  rewrite decide_False in Hbs by done.
  unfold deployed_dict in Hbs. rewrite Hnone in Hbs. discriminate.
Qed.

(** C5. On [omitted_layout_call], where [deployed_instances] is omitted and
    [change_penalty] is 0, the call raises [AttributeError] whatever the
    backend: the minimum-one comprehension calls [.get] on [None]. *)
Theorem omitted_layout_raises solve :
  optimize solve omitted_layout_call = Raise AttributeError.
Proof. reflexivity. Qed.

(** What the result assembly reports for a supply type that no setup runs
    on: its supply when no type at all is eligible, and nothing as soon as
    some type is. *)
Lemma ineligible_type_degenerate solve a σ res t :
  returns_plan solve a σ res ->
  (forall t', ~ eligible a t') ->
  gpu_after_allocation res !! t = gpu_limits a !! t.
Proof.
  intros (E & _ & _ & Hres)%returns_plan_inv Hnone.
  rewrite (assemble_gpus a σ res t Hres).
  destruct (keys (setups_per_gpu a)) as [|t0 ts] eqn:Hkeys; [reflexivity|].
  exfalso. apply (Hnone t0), elem_of_setups_per_gpu, elem_of_keys.
  rewrite Hkeys. constructor.
Qed.

Lemma ineligible_type_dropped solve a σ res t t0 :
  returns_plan solve a σ res ->
  eligible a t0 -> ~ eligible a t ->
  gpu_after_allocation res !! t = None.
Proof.
  intros (E & _ & _ & Hres)%returns_plan_inv Ht0 Ht.
  rewrite (assemble_gpus a σ res t Hres).
  destruct (keys (setups_per_gpu a)) as [|t1 ts] eqn:Hkeys.
  - apply elem_of_setups_per_gpu, elem_of_keys in Ht0.
    rewrite Hkeys in Ht0. inversion Ht0.
  - destruct (setups_per_gpu a !! t) as [l|] eqn:Hl; [|reflexivity].
    exfalso. apply Ht, elem_of_setups_per_gpu. eauto.
Qed.

(** C4. On [unused_type_call] the supply has 8 H100 and no setup runs on
    H100, while A100 has a setup.  The call returns the plan of a solution of
    the encoded model, and [gpu_after_allocation] has no entry for H100. *)
Theorem unused_type_dropped :
  returns_optimal_plan (answer unused_type_solution) unused_type_call
    unused_type_solution
    (result_of (answer unused_type_solution) unused_type_call) /\
  gpu_limits unused_type_call !! "H100" = Some 8%Z /\
  setups_of_type unused_type_call "H100" = [] /\
  gpu_after_allocation
    (result_of (answer unused_type_solution) unused_type_call) !! "A100"
    = Some 3%Z /\
  gpu_after_allocation
    (result_of (answer unused_type_solution) unused_type_call) !! "H100"
    = None.
Proof.
  split.
  - optimal_plan_by_computation feasibleb_sound.
    intros σ' Hfeas. unpack_feasible Hfeas.
    unfold objective_value. cbn [objective eval foldr].
    unfold unused_type_solution. simpl. lra.
  - repeat split; vm_compute; reflexivity.
Qed.

(** C2. In the encoded model the constraints named [min_instances_ct] are
    exactly the minimum-one constraints of the catalog models that are outside
    [scale_to_zero] and have a positive number of current replicas; no other
    model gets one.  In every returned plan each of these models has at
    least one replica in total. *)
Theorem minimum_one a mdl :
  encoded_model a = Return mdl ->
  named "min_instances_ct" mdl =
    (fun ms => min_one ms.1 ms.2) <$> forced_active a /\
  forall solve σ res,
    returns_plan solve a σ res ->
    Forall (fun ms => (1 <= total_replicas res ms.1 ms.2)%Z) (forced_active a).
Proof.
  intros Henc.
  destruct (encoded_model_encodes _ _ Henc) as (E & HE & -> & _).
  pose proof (min_instances_ct_Return _ _ (enc_inst _ _ HE)) as Hinst.
  split; [now rewrite named_min_instances|].
  intros solve σ res Hplan. apply Forall_forall. intros [m setups] Hin.
  destruct (returns_plan_inv _ _ _ _ Hplan) as (E' & HE' & Hfeas & Hres).
  pose proof (min_instances_ct_Return _ _ (enc_inst _ _ HE')) as Hinst'.
  assert (Hc : holds σ (min_one m setups)).
  { apply (feasible_holds a E' σ "min_instances_ct"); [done|].
    simpl. rewrite !elem_of_app. do 2 right. left.
    apply elem_of_tag. rewrite Hinst'. apply list_elem_of_fmap.
    now exists (m, setups). }
  unfold min_one, holds in Hc. rewrite eval_Sum in Hc.
  change (eval σ (Num 1)) with 1%Q in Hc.
  rewrite <- list_fmap_compose in Hc.
  apply list_elem_of_filter in Hin as [_ Hm]. apply elem_of_items in Hm.
  unfold total_replicas. simpl. rewrite Zle_Qle, inject_sumZ.
  eapply Qle_trans; [exact Hc|]. apply Qle_lteq. right.
  apply sumQ_ext. intros s [sd Hs]%elem_of_keys. simpl.
  destruct (plan_replicas _ _ _ _ m s sd Hplan) as (_ & -> & _);
    [unfold variant_of; now rewrite Hm|reflexivity].
Qed.

Lemma minimum_one_witness :
  named "min_instances_ct" (model_of_call test_call_1) =
    (fun ms => min_one ms.1 ms.2) <$> forced_active test_call_1 /\
  Forall (fun ms =>
      (1 <= total_replicas
              (result_of (answer test_solution_1) test_call_1)
              ms.1 ms.2)%Z)
    (forced_active test_call_1).
Proof.
  destruct (minimum_one test_call_1 (model_of_call test_call_1))
    as [Hnamed Hplan].
  - vm_compute. reflexivity.
  - split; [exact Hnamed|].
    apply (Hplan (answer test_solution_1) test_solution_1).
    plan_by_computation feasibleb_sound.
Defined.

(** The unit test's first call forces two models active: [lama-80b] is
    deployed but exempt, [mistral] is not exempt but has no replica. *)
Example test_call_1_forced_active :
  (forced_active test_call_1).*1 = ["google-flan-xl"; "lama-8b"].
Proof. vm_compute. reflexivity. Qed.



(** In the unit test's second call [google-flan-xl] is over-provisioned and
    the other three models are under-provisioned. *)
Example test_call_2_instance_change :
  named "instance_change_ct" (model_of_call test_call_2) =
    [growth_ct "google-flan-xl" "flan-a100" 1;
     growth_ct "google-flan-xl" "flan-h100" 1;
     shrink_ct "mistral" "mistral-a100" 0;
     shrink_ct "mistral" "mistral-h100" 0;
     shrink_ct "lama-8b" "lama8-a100+" 1;
     shrink_ct "lama-8b" "lama8-a100" 0;
     shrink_ct "lama-80b" "lama80-a100+" 0;
     shrink_ct "lama-80b" "lama80-h100" 1].
Proof. vm_compute. reflexivity. Qed.






(** In the unit test the most expensive eligible type is H100; the expected
    solutions of its first two calls cost 37 and 34.9. *)
Example test_max_gpu_cost : max_gpu_cost test_call_2 = (13 # 10)%Q.
Proof. vm_compute. reflexivity. Qed.

Example test_objective_values :
  (objective_value (model_of_call test_call_1) test_solution_1 == 37)%Q /\
  (objective_value (model_of_call test_call_2) test_solution_2 == 349 # 10)%Q.
Proof. split; vm_compute; reflexivity. Qed.




(** * Further properties of the optimizer *)


(** ** Replica bounds *)

Lemma max_replicas_ct_elem a cts m md s r :
  max_replicas_ct a (eta_dict a) = Return cts ->
  max_replicas a !! m = Some md -> md !! s = Some (Some r) ->
  is_Some (variant_of a m s) /\
  LeCt (Var (eta_var m s)) (Num (inject_Z r)) ∈ cts.
Proof.
  intros Hrun Hm Hs. apply elem_of_items in Hm. apply elem_of_items in Hs.
  destruct (comprehension_body _ _ _ _ Hrun Hm) as (bs & Hbs & Hsub).
  destruct (comprehension_body _ _ _ _ Hbs Hs) as (bs' & Hbs' & Hsub').
  apply outcome_bind_Return in Hbs' as (x & Hx & Hbs').
  apply getitem_eta_inv in Hx as [-> Hv]. injection Hbs' as <-.
  split; [done|]. apply Hsub, Hsub'. constructor.
Qed.

Lemma min_replicas_ct_elem a cts m md s r :
  min_replicas_ct a (eta_dict a) = Return cts ->
  min_replicas a !! m = Some md -> md !! s = Some (Some r) -> r <> 0%Z ->
  is_Some (variant_of a m s) /\
  GeCt (Var (eta_var m s)) (Num (inject_Z r)) ∈ cts.
Proof.
  intros Hrun Hm Hs Hr. apply elem_of_items in Hm. apply elem_of_items in Hs.
  destruct (comprehension_body _ _ _ _ Hrun Hm) as (bs & Hbs & Hsub).
  destruct (comprehension_body _ _ _ _ Hbs Hs) as (bs' & Hbs' & Hsub').
  rewrite decide_False in Hbs' by done.
  apply outcome_bind_Return in Hbs' as (x & Hx & Hbs').
  apply getitem_eta_inv in Hx as [-> Hv]. injection Hbs' as <-.
  split; [done|]. apply Hsub, Hsub'. constructor.
Qed.

Lemma encodes_max a E m md :
  encodes a E -> max_replicas a !! m = Some md ->
  max_replicas_ct a (eta_dict a) = Return (e_max E).
Proof.
  intros HE Hm. pose proof (enc_max _ _ HE) as Hmax.
  destruct (decide (max_replicas a = ∅)) as [Hnil|]; [|done].
  rewrite Hnil, lookup_empty in Hm. discriminate.
Qed.

Lemma encodes_min a E m md :
  encodes a E -> min_replicas a !! m = Some md ->
  min_replicas_ct a (eta_dict a) = Return (e_min E).
Proof.
  intros HE Hm. pose proof (enc_min _ _ HE) as Hmin.
  destruct (decide (min_replicas a = ∅)) as [Hnil|]; [|done].
  rewrite Hnil, lookup_empty in Hm. discriminate.
Qed.

Lemma min_bound_holds a E σ m md s r :
  encodes a E -> feasible (model_of a E) σ ->
  min_replicas a !! m = Some md -> md !! s = Some (Some r) -> r <> 0%Z ->
  is_Some (variant_of a m s) /\ (inject_Z r <= σ (eta_var m s))%Q.
Proof.
  intros HE Hfeas Hm Hs Hr.
  destruct (min_replicas_ct_elem a _ m md s r (encodes_min _ _ _ _ HE Hm) Hm Hs Hr)
    as [Hv Hc]. split; [done|].
  apply (feasible_holds a E σ "min_replicas_ct"
           (GeCt (Var (eta_var m s)) (Num (inject_Z r))) Hfeas).
  simpl. rewrite !elem_of_app. right; left. now apply elem_of_tag.
Qed.

(** X1. In every returned plan a pair with a bound in [max_replicas] that is
    not [None] has at most that many replicas. *)
Theorem replica_upper_bound solve a σ res m md s r :
  returns_plan solve a σ res ->
  max_replicas a !! m = Some md -> md !! s = Some (Some r) ->
  (replicas res m s <= r)%Z.
Proof.
  intros Hplan Hm Hs.
  destruct (returns_plan_inv _ _ _ _ Hplan) as (E & HE & Hfeas & Hres).
  destruct (max_replicas_ct_elem a _ m md s r (encodes_max _ _ _ _ HE Hm) Hm Hs)
    as [[sd Hsd] Hc].
  assert (Hle : holds σ (LeCt (Var (eta_var m s)) (Num (inject_Z r)))).
  { apply (feasible_holds a E σ "max_replicas_ct" _ Hfeas).
    simpl. rewrite !elem_of_app. left. now apply elem_of_tag. }
  unfold holds in Hle. simpl in Hle.
  destruct (plan_replicas _ _ _ _ m s sd Hplan Hsd) as (_ & Heq & _).
  rewrite Zle_Qle, Heq. exact Hle.
Qed.

(** X2. In every returned plan a pair with a bound in [min_replicas] that is
    neither [None] nor 0 has at least that many replicas. *)
Theorem replica_lower_bound solve a σ res m md s r :
  returns_plan solve a σ res ->
  min_replicas a !! m = Some md -> md !! s = Some (Some r) -> r <> 0%Z ->
  (r <= replicas res m s)%Z.
Proof.
  intros Hplan Hm Hs Hr.
  destruct (returns_plan_inv _ _ _ _ Hplan) as (E & HE & Hfeas & Hres).
  destruct (min_bound_holds a E σ m md s r HE Hfeas Hm Hs Hr) as [[sd Hsd] Hle].
  destruct (plan_replicas _ _ _ _ m s sd Hplan Hsd) as (_ & Heq & _).
  now rewrite Zle_Qle, Heq.
Qed.

(** ** Reported replica counts *)



(** ** Supply *)

Lemma supply_constraints a E σ t limit :
  encodes a E -> feasible (model_of a E) σ ->
  eligible a t -> gpu_limits a !! t = Some limit ->
  (gpu_load a σ t <= inject_Z limit)%Q /\
  (gpu_load a σ t <= σ (used_gpu_var t))%Q.
Proof.
  intros HE Hfeas Helig Hlim.
  apply elem_of_setups_per_gpu in Helig as [l Hl].
  assert (Hl' := Hl). apply setups_per_gpu_lookup in Hl' as (_ & Heq & _).
  split.
  - assert (Hc : holds σ (LeCt
       (Sum ((fun '(m, s, n) => Scale n (Var (eta_var m s))) <$> l))
       (Num (inject_Z limit)))).
    { apply (feasible_holds a E σ "gpu_limit_ct"); [done|].
      simpl. rewrite !elem_of_app. do 4 right. left. apply elem_of_tag.
      now apply (gpu_limit_ct_elem a _ t l limit (enc_limit _ _ HE)). }
    unfold holds in Hc. subst l. now rewrite eval_gpu_terms in Hc.
  - assert (Hc : holds σ (GeCt (Var (used_gpu_var t))
       (Sum ((fun '(m, s, n) => Scale n (Var (eta_var m s))) <$> l)))).
    { apply (feasible_holds a E σ "int_gpu_ct"); [done|].
      simpl. rewrite !elem_of_app. do 6 right. apply elem_of_tag.
      apply (int_gpu_ct_Return _ _ (enc_int _ _ HE)). eauto. }
    unfold holds in Hc. subst l. now rewrite eval_gpu_terms in Hc.
Qed.

(** X4. In every returned plan the accelerators consumed on an eligible
    type do not exceed the supply of the type. *)
Theorem supply_feasibility solve a σ res t limit :
  returns_plan solve a σ res ->
  eligible a t -> gpu_limits a !! t = Some limit ->
  (consumed a res t <= inject_Z limit)%Q.
Proof.
  intros Hplan Helig Hlim.
  destruct (returns_plan_inv _ _ _ _ Hplan) as (E & HE & Hfeas & Hres).
  rewrite (consumed_gpu_load _ _ _ _ t Hplan).
  now apply (supply_constraints a E σ t limit).
Qed.


(** X6. When no accelerator type is eligible and the backend reports a
    solution, [gpu_after_allocation] is the supply map itself. *)
Theorem degenerate_supply solve a mdl σ res :
  encoded_model a = Return mdl -> solve mdl = Some σ ->
  optimize solve a = Return res ->
  (forall t, ~ eligible a t) ->
  gpu_after_allocation res = gpu_limits a.
Proof.
  intros Henc Hsolve Hres Hnone.
  rewrite (optimize_solved _ _ _ _ Henc Hsolve) in Hres.
  apply map_eq. intros t. rewrite (assemble_gpus a σ res t Hres).
  destruct (keys (setups_per_gpu a)) as [|t0 ts] eqn:Hkeys; [reflexivity|].
  exfalso. apply (Hnone t0), elem_of_setups_per_gpu, elem_of_keys.
  rewrite Hkeys. constructor.
Qed.

(** ** Demand and activity *)

Lemma service_rate_holds a E σ m r :
  encodes a E -> feasible (model_of a E) σ ->
  required_rates a !! m = Some r ->
  exists setups,
    variants a !! m = Some setups /\
    (r <= sumQ ((fun '(s, sd) => max_service_rate sd * σ (eta_var m s))
                <$> items setups))%Q.
Proof.
  intros HE Hfeas Hr.
  assert (Hin : m ∈ keys (required_rates a)) by (apply elem_of_keys; eauto).
  destruct (comprehension_body _ _ _ _ (enc_rate _ _ HE) Hin)
    as (bs & Hbs & Hsub).
  apply getitem_Return in Hr. rewrite Hr in Hbs. simpl in Hbs.
  destruct (variants a !! m) as [setups|] eqn:Hm;
    [|unfold getitem in Hbs; rewrite Hm in Hbs; discriminate].
  exists setups. split; [done|].
  rewrite (proj2 (getitem_Return _ _ _) Hm) in Hbs. simpl in Hbs.
  rewrite (eta_terms a m setups
             (fun _ sd x => Scale (max_service_rate sd) (Var x)) Hm) in Hbs.
  injection Hbs as <-.
  assert (Hc := fun H => feasible_holds a E σ "service_rate_ct" (LeCt (Num r)
    (Sum ((fun '(s, sd) => Scale (max_service_rate sd) (Var (eta_var m s)))
          <$> items setups))) Hfeas H).
  unfold holds in Hc. rewrite eval_Sum, <- list_fmap_compose in Hc.
  change (eval σ (Num r)) with r in Hc.
  eapply Qle_trans; [apply Hc|].
  - simpl. rewrite !elem_of_app. do 3 right. left.
    apply elem_of_tag, Hsub. constructor.
  - apply Qle_lteq. right. apply sumQ_ext. now intros [s sd] _.
Qed.

Lemma sumQ_zero {A} (f : A -> Q) (l : list A) :
  (forall x, x ∈ l -> (f x == 0)%Q) -> (sumQ (f <$> l) == 0)%Q.
Proof.
  induction l as [|x l IH]; intros Hf; [reflexivity|].
  rewrite fmap_cons. unfold sumQ in *. simpl.
  rewrite (Hf x) by constructor. rewrite IH; [lra|].
  intros y Hy. apply Hf. now constructor.
Qed.

Lemma sumZ_nonneg {A} (f : A -> Z) (l : list A) :
  (forall x, x ∈ l -> (0 <= f x)%Z) ->
  (0 <= sumZ (f <$> l))%Z /\
  forall x, x ∈ l -> (f x <= sumZ (f <$> l))%Z.
Proof.
  induction l as [|x l IH]; intros Hf.
  - split; [reflexivity|]. intros x Hx. inversion Hx.
  - destruct IH as [Hpos Hle]; [intros y Hy; apply Hf; now constructor|].
    rewrite fmap_cons. unfold sumZ in *. simpl.
    pose proof (Hf x ltac:(constructor)).
    split; [lia|]. intros y [->|Hy]%elem_of_cons; [lia|].
    specialize (Hle y Hy). lia.
Qed.

Lemma some_positive {A} (f : A -> Z) (l : list A) :
  (forall x, x ∈ l -> (0 <= f x)%Z) ->
  (exists x, x ∈ l /\ (1 <= f x)%Z) \/ (forall x, x ∈ l -> f x = 0%Z).
Proof.
  induction l as [|x l IH]; intros Hf.
  - right. intros x Hx. inversion Hx.
  - pose proof (Hf x ltac:(constructor)) as Hx.
    destruct (Z_lt_le_dec (f x) 1) as [Hlt|Hge].
    + destruct IH as [(y & Hy & Hpos)|Hzero].
      * intros y Hy. apply Hf. now constructor.
      * left. exists y. split; [now constructor|done].
      * right. intros y [->|Hy]%elem_of_cons; [lia|now apply Hzero].
    + left. exists x. split; [constructor|done].
Qed.

(** A model with a positive required rate has a setup with a replica. *)
Lemma active_setup solve a σ res m r :
  returns_plan solve a σ res ->
  required_rates a !! m = Some r -> (0 < r)%Q ->
  exists setups s,
    variants a !! m = Some setups /\ s ∈ keys setups /\
    (1 <= replicas res m s)%Z.
Proof.
  intros Hplan Hr Hpos.
  destruct (returns_plan_inv _ _ _ _ Hplan) as (E & HE & Hfeas & Hres).
  destruct (service_rate_holds a E σ m r HE Hfeas Hr) as (setups & Hm & Hrate).
  exists setups.
  assert (Hnn : forall s, s ∈ keys setups -> (0 <= replicas res m s)%Z).
  { intros s [sd Hs]%elem_of_keys.
    apply (plan_replicas _ _ _ _ m s sd Hplan).
    unfold variant_of. now rewrite Hm. }
  destruct (some_positive (fun s => replicas res m s) (keys setups) Hnn)
    as [(s & Hs & Hge)|Hall]; [exists s; done|exfalso].
  assert (Hzero : (sumQ ((fun '(s, sd) =>
                     max_service_rate sd * σ (eta_var m s)) <$> items setups)
                   == 0)%Q).
  { apply (sumQ_zero (fun ssd : string * VariantData =>
             let '(s, sd) := ssd in max_service_rate sd * σ (eta_var m s))%Q).
    intros [s sd] Hs. apply elem_of_items in Hs.
    assert (Hsd : variant_of a m s = Some sd)
      by (unfold variant_of; now rewrite Hm).
    destruct (plan_replicas _ _ _ _ m s sd Hplan Hsd) as (_ & Heq & _).
    assert (Hin : s ∈ keys setups) by (apply elem_of_keys; eauto).
    rewrite <- Heq, (Hall s Hin). ring. }
  rewrite Hzero in Hrate. lra.
Qed.

(** X7. In every returned plan a model with a strictly positive required
    rate has at least one replica in total, whether or not it is in
    [scale_to_zero] or currently deployed. *)
Theorem positive_demand_forces_active solve a σ res m r :
  returns_plan solve a σ res ->
  required_rates a !! m = Some r -> (0 < r)%Q ->
  exists setups,
    variants a !! m = Some setups /\ (1 <= total_replicas res m setups)%Z.
Proof.
  intros Hplan Hr Hpos.
  destruct (active_setup _ _ _ _ _ _ Hplan Hr Hpos)
    as (setups & s & Hm & Hs & Hge).
  exists setups. split; [done|].
  assert (Hnn : forall s, s ∈ keys setups -> (0 <= replicas res m s)%Z).
  { intros s' [sd Hs']%elem_of_keys.
    apply (plan_replicas _ _ _ _ m s' sd Hplan).
    unfold variant_of. now rewrite Hm. }
  destruct (sumZ_nonneg (fun s => replicas res m s) (keys setups) Hnn)
    as [_ Hle].
  specialize (Hle s Hs). unfold total_replicas. simpl in Hle. lia.
Qed.

(** ** Homogeneous placement against minimum bounds *)

(** X8. Under homogeneous placement, positive minimum bounds on two
    different setups of a model of [required_rates] make the encoded model
    infeasible: a backend that only answers solutions reports none, and the
    call returns the empty result. *)
Theorem homogeneous_min_conflict a mdl m rate md s1 s2 r1 r2 :
  encoded_model a = Return mdl ->
  homogeneous a = true ->
  required_rates a !! m = Some rate ->
  min_replicas a !! m = Some md ->
  md !! s1 = Some (Some r1) -> md !! s2 = Some (Some r2) ->
  s1 <> s2 -> (0 < r1)%Z -> (0 < r2)%Z ->
  (forall σ, ~ feasible mdl σ) /\
  forall solve,
    (forall σ, solve mdl = Some σ -> feasible mdl σ) ->
    optimize solve a = Return empty_result.
Proof.
  intros Henc Hhom Hrate Hmd Hs1 Hs2 Hne Hr1 Hr2.
  assert (Hinf : forall σ, ~ feasible mdl σ).
  { intros σ Hfeas.
    destruct (encoded_model_encodes _ _ Henc) as (E & HE & -> & _).
    destruct (min_bound_holds a E σ m md s1 r1 HE Hfeas Hmd Hs1 ltac:(lia))
      as [[sd1 Hsd1] Hle1].
    destruct (min_bound_holds a E σ m md s2 r2 HE Hfeas Hmd Hs2 ltac:(lia))
      as [[sd2 Hsd2] Hle2].
    pose proof (enc_sos1 _ _ HE) as Hsos. rewrite Hhom in Hsos.
    assert (Hin : m ∈ keys (required_rates a)) by (apply elem_of_keys; eauto).
    apply list_elem_of_lookup in Hin as [i Hi].
    destruct (Forall2_lookup_l _ _ _ _ _ Hsos Hi) as (vars & Hvars & Hrun).
    apply sos1_vars_Return in Hrun as (setups & Hm & ->).
    apply feasible_sos1 in Hfeas. simpl in Hfeas.
    rewrite Forall_forall in Hfeas.
    assert (Hok := Hfeas _ (list_elem_of_lookup_2 _ _ _ Hvars)).
    unfold sos1_ok in Hok.
    assert (Hmem : forall s sd, variant_of a m s = Some sd ->
              eta_var m s ∈ eta_var m <$> keys setups).
    { intros s sd Hsd. unfold variant_of in Hsd. rewrite Hm in Hsd.
      apply list_elem_of_fmap. exists s. split; [done|].
      apply elem_of_keys. eauto. }
    assert (Hnz : forall s r, (0 < r)%Z -> (inject_Z r <= σ (eta_var m s))%Q ->
              nonzero σ (eta_var m s) = true).
    { intros s r Hr Hle. unfold nonzero. apply negb_true_iff.
      destruct (Qeq_bool (σ (eta_var m s)) 0) eqn:Hz; [|done].
      apply Qeq_bool_eq in Hz. rewrite Hz in Hle.
      change 0%Q with (inject_Z 0) in Hle. rewrite <- Zle_Qle in Hle. lia. }
    pose proof (filter_length_two (nonzero σ) _ (eta_var m s1) (eta_var m s2)
                  (Hmem _ _ Hsd1) (Hmem _ _ Hsd2)) as Htwo.
    assert (2 <= 1)%nat; [|lia].
    etransitivity; [apply Htwo|exact Hok]; eauto; congruence. }
  split; [done|]. intros solve Hsound.
  destruct (solve mdl) as [σ|] eqn:Hsolve.
  - exfalso. apply (Hinf σ). now apply Hsound.
  - now apply (optimize_no_solution solve a mdl).
Qed.

(** ** Which exceptions a call raises *)















(** ** When a call returns *)

Lemma optimize_Return_encoded solve a res :
  optimize solve a = Return res -> exists mdl, encoded_model a = Return mdl.
Proof.
  unfold optimize. intros Hrun.
  apply outcome_bind_Return in Hrun as ([res' mdl'] & Hrun & _).
  unfold get_optimal_gpu_allocation in Hrun.
  apply M_bind_Return in Hrun as ([eta ug] & mdl & Henc & _).
  exists mdl. apply encoded_model_Return. eauto.
Qed.




















(** ** The diagnostic fields *)

(** X12. Every result that a call returns, plan or empty, has empty
    [impossible_models], [strange_models], [missing_models] and
    [impossible_instances]. *)
Theorem diagnostics_empty solve a res :
  optimize solve a = Return res ->
  impossible_models res = [] /\ strange_models res = [] /\
  missing_models res = [] /\ impossible_instances res = ∅.
Proof.
  intros Hres.
  destruct (optimize_Return_encoded _ _ _ Hres) as [mdl Henc].
  destruct (solve mdl) as [σ|] eqn:Hsolve.
  - rewrite (optimize_solved _ _ _ _ Henc Hsolve) in Hres.
    exact (assemble_diagnostics _ _ _ Hres).
  - rewrite (optimize_no_solution _ _ _ Henc Hsolve) in Hres.
    injection Hres as <-. done.
Qed.

Lemma diagnostics_empty_witness :
  impossible_models (result_of (answer test_solution_1) test_call_1) = [] /\
  strange_models (result_of (answer test_solution_1) test_call_1) = [] /\
  missing_models (result_of (answer test_solution_1) test_call_1) = [] /\
  impossible_instances (result_of (answer test_solution_1) test_call_1) = ∅.
Proof.
  apply (diagnostics_empty (answer test_solution_1) test_call_1).
  vm_compute. reflexivity.
Defined.

(** ** The properties on concrete calls *)

Lemma replica_upper_bound_witness :
  (replicas (result_of (answer test_solution_1) test_call_1)
     "lama-8b" "lama8-a100+" <= 3)%Z.
Proof.
  eapply (replica_upper_bound (answer test_solution_1) test_call_1
            test_solution_1).
  - plan_by_computation feasibleb_sound.
  - vm_compute. reflexivity.
  - vm_compute. reflexivity.
Defined.

Lemma replica_lower_bound_witness :
  (1 <= replicas (result_of (answer test_solution_1) test_call_1)
          "mistral" "mistral-h100")%Z.
Proof.
  eapply (replica_lower_bound (answer test_solution_1) test_call_1
            test_solution_1).
  - plan_by_computation feasibleb_sound.
  - vm_compute. reflexivity.
  - vm_compute. reflexivity.
  - discriminate.
Defined.


Lemma supply_feasibility_witness :
  (consumed test_call_1 (result_of (answer test_solution_1) test_call_1)
     "A100" <= inject_Z 15)%Q.
Proof.
  apply (supply_feasibility (answer test_solution_1) test_call_1
           test_solution_1).
  - plan_by_computation feasibleb_sound.
  - split; [vm_compute; eauto|].
    exists "google-flan-xl", "flan-a100". eexists.
    split; vm_compute; reflexivity.
  - vm_compute. reflexivity.
Defined.


Lemma degenerate_supply_witness :
  gpu_after_allocation
    (result_of (answer no_eligible_solution) no_eligible_call) =
  gpu_limits no_eligible_call.
Proof.
  eapply (degenerate_supply (answer no_eligible_solution) no_eligible_call).
  - vm_compute. reflexivity.
  - reflexivity.
  - vm_compute. reflexivity.
  - intros t [Hlim (m & s & sd & Hsd & Ht)].
    unfold variant_of in Hsd. simpl in Hsd.
    destruct (decide (m = "m")) as [->|Hne];
      [|rewrite lookup_singleton_ne in Hsd by done; discriminate].
    rewrite lookup_singleton_eq in Hsd. simpl in Hsd.
    destruct (decide (s = "v")) as [->|Hne];
      [|rewrite lookup_singleton_ne in Hsd by done; discriminate].
    rewrite lookup_singleton_eq in Hsd. injection Hsd as <-.
    simpl in Ht. subst t. vm_compute in Hlim. destruct Hlim; discriminate.
Defined.

Lemma positive_demand_forces_active_witness :
  exists setups,
    variants test_call_1 !! "mistral" = Some setups /\
    (1 <= total_replicas (result_of (answer test_solution_1) test_call_1)
            "mistral" setups)%Z.
Proof.
  apply (positive_demand_forces_active (answer test_solution_1) test_call_1
           test_solution_1 _ "mistral" 15%Q).
  - plan_by_computation feasibleb_sound.
  - vm_compute. reflexivity.
  - reflexivity.
Defined.

Lemma homogeneous_min_conflict_witness :
  (forall σ, ~ feasible (model_of_call conflict_call) σ) /\
  forall solve,
    (forall σ, solve (model_of_call conflict_call) = Some σ ->
               feasible (model_of_call conflict_call) σ) ->
    optimize solve conflict_call = Return empty_result.
Proof.
  eapply (homogeneous_min_conflict conflict_call (model_of_call conflict_call)
            "m" 10%Q _ "v1" "v2" 1%Z 1%Z).
  - vm_compute. reflexivity.
  - reflexivity.
  - vm_compute. reflexivity.
  - vm_compute. reflexivity.
  - vm_compute. reflexivity.
  - vm_compute. reflexivity.
  - discriminate.
  - reflexivity.
  - reflexivity.
Defined.







(** * The bridge to the Go controller *)

(** ** Loops that update a dictionary key by key *)

Lemma foldl_update_lookup {A V} (step : gmap string V -> string * A -> gmap string V)
    (h : string -> A -> option V -> option V) :
  (forall d k a k',
     step d (k, a) !! k' = if decide (k' = k) then h k a (d !! k') else d !! k') ->
  forall l d k', NoDup l.*1 ->
    foldl step d l !! k' =
    match (list_to_map l : gmap string A) !! k' with
    | Some a => h k' a (d !! k')
    | None => d !! k'
    end.
Proof.
  intros Hstep l. induction l as [|[k a] l IH]; intros d k' Hnd.
  - reflexivity.
  - rewrite fmap_cons in Hnd. apply NoDup_cons in Hnd as [Hk Hnd].
    simpl. rewrite IH by done. rewrite Hstep.
    destruct (decide (k' = k)) as [->|Hne].
    + rewrite lookup_insert_eq.
      now rewrite (not_elem_of_list_to_map_1 (M := gmap string) l k Hk).
    + now rewrite lookup_insert_ne by done.
Qed.

Lemma foldl_items_lookup {A V} (step : gmap string V -> string * A -> gmap string V)
    (h : string -> A -> option V -> option V) (m : gmap string A) d k' :
  (forall d k a k',
     step d (k, a) !! k' = if decide (k' = k) then h k a (d !! k') else d !! k') ->
  foldl step d (items m) !! k' =
  match m !! k' with
  | Some a => h k' a (d !! k')
  | None => d !! k'
  end.
Proof.
  intros Hstep. unfold items.
  rewrite (foldl_update_lookup step h Hstep) by apply NoDup_fst_map_to_list.
  now rewrite list_to_map_to_list.
Qed.

(** ** The supply *)

Lemma count_gpu_lookup d k a k' :
  count_gpu d (k, a) !! k' =
  if decide (k' = k) then Some (default 0 (d !! k') + default 0 (Count a))%Z
  else d !! k'.
Proof.
  unfold count_gpu. simpl.
  destruct (decide (k' = k)) as [->|Hne].
  - rewrite lookup_insert_eq. destruct (d !! k) as [n|] eqn:Hk.
    + now rewrite Hk.
    + now rewrite lookup_insert_eq.
  - rewrite lookup_insert_ne by done.
    destruct (d !! k); [done|]. now rewrite lookup_insert_ne by done.
Qed.

(** X13. [extract_gpu_limits_from_inventory] gives a GPU model the sum,
    over the nodes that list it, of their counts, a missing [Count] counting
    0; a model that no node lists has no entry. *)
Theorem gpu_limits_sum go_data gpu_model :
  extract_gpu_limits_from_inventory go_data !! gpu_model =
  match listed_counts go_data gpu_model with
  | [] => None
  | counts => Some (sumZ counts)
  end.
Proof.
  unfold extract_gpu_limits_from_inventory, listed_counts.
  generalize (items (default ∅ (cluster_inventory go_data))). intros l.
  enough (Hgen : forall d : gmap string Z,
    foldl (fun gpu_limits '(node_name, node_gpus) =>
             foldl count_gpu gpu_limits (items node_gpus)) d l !! gpu_model =
    match omap (fun '(node_name, node_gpus) =>
                  (fun gpu_info => default 0%Z (Count gpu_info))
                    <$> (node_gpus : gmap string AcceleratorModelInfo)
                          !! gpu_model) l with
    | [] => d !! gpu_model
    | counts => Some (default 0 (d !! gpu_model) + sumZ counts)%Z
    end).
  { rewrite Hgen. rewrite lookup_empty. simpl.
    now destruct (omap _ l). }
  unfold omap. induction l as [|[node gpus] l IH]; intros d; [reflexivity|].
  simpl. rewrite IH.
  rewrite (foldl_items_lookup count_gpu
             (fun _ a o => Some (default 0 o + default 0 (Count a))%Z)
             gpus d gpu_model count_gpu_lookup).
  destruct (gpus !! gpu_model) as [info|]; simpl; [|reflexivity].
  destruct (list_omap _ _ _ l) as [|c cs]; simpl; f_equal;
    unfold sumZ; simpl; lia.
Qed.

(** ** The demand *)



Lemma foldl_Qplus {A} (f : A -> Q) (l : list A) (q : Q) :
  (foldl (fun acc x => acc + f x) q l == q + sumQ (f <$> l))%Q.
Proof.
  revert q. induction l as [|x l IH]; intros q.
  - unfold sumQ. simpl. lra.
  - cbn [foldl]. rewrite IH, fmap_cons. unfold sumQ. cbn [foldr]. lra.
Qed.

Theorem total_rate_sum analysis :
  (total_rate analysis ==
   sumQ ((fun allocation =>
            default 0 (RequiredPrefillQPS allocation) +
            default 0 (RequiredDecodeQPS allocation))
         <$> values (default ∅ (allocations analysis))))%Q.
Proof.
  unfold total_rate, values, items.
  generalize (map_to_list (default ∅ (allocations analysis))). intros l.
  set (f := fun allocation =>
              (default 0 (RequiredPrefillQPS allocation) +
               default 0 (RequiredDecodeQPS allocation))%Q).
  assert (Hfold : forall q,
            foldl (fun total_rate '(acc_name, allocation) =>
                     (total_rate + f allocation)%Q) q l =
            foldl (fun acc x => (acc + f x)%Q) q l.*2).
  { induction l as [|[k a] l IH]; intros q; [reflexivity|]. simpl. apply IH. }
  unfold f in Hfold at 1. rewrite Hfold, foldl_Qplus. lra.
Qed.

(** ** The costs *)

Lemma extract_gpu_costs_lookup float go_data t :
  extract_gpu_costs_from_config float go_data !! t =
  (fun acc_properties : gmap string string =>
     default 0%Q (float (default "0.0" (acc_properties !! "cost"))))
    <$> default ∅ (accelerator_config go_data) !! t.
Proof.
  unfold extract_gpu_costs_from_config.
  rewrite (foldl_items_lookup _
             (fun _ (props : gmap string string) _ =>
                Some (default 0%Q (float (default "0.0" (props !! "cost")))))).
  - rewrite lookup_empty.
    now destruct (default ∅ (accelerator_config go_data) !! t).
  - intros d k a k'.
    destruct (float (default "0.0" (a !! "cost"))); simpl;
      (destruct (decide (k' = k)) as [->|Hne];
       [now rewrite lookup_insert_eq|now rewrite lookup_insert_ne by done]).
Qed.

(** ** The catalog *)

Lemma to_dict_setitem {V} k (v : V) d :
  to_dict (setitem k v d) = <[k := v]> (to_dict d).
Proof.
  unfold to_dict. induction d as [|[k' v'] d IH]; [reflexivity|].
  simpl. destruct (decide (k = k')) as [->|Hne]; simpl.
  - now rewrite insert_insert_eq.
  - rewrite IH. now apply insert_insert_ne.
Qed.

Lemma elem_of_setitem {V} k (v : V) d k' v' :
  (k', v') ∈ setitem k v d -> (k', v') = (k, v) \/ (k', v') ∈ d.
Proof.
  induction d as [|[k0 v0] d IH]; simpl.
  - intros ->%list_elem_of_singleton. now left.
  - destruct (decide (k = k0)) as [->|Hne].
    + intros [->|Hin]%elem_of_cons; [now left|]. right. now constructor.
    + intros [->|Hin]%elem_of_cons; [right; constructor|].
      destruct (IH Hin) as [->|Hd]; [now left|]. right. now constructor.
Qed.

Lemma enumerate_lookup {A} (l : list A) i x :
  (i, x) ∈ enumerate l <-> l !! i = Some x.
Proof.
  unfold enumerate. rewrite list_elem_of_lookup. split.
  - intros [j Hj]. apply lookup_zip_with_Some in Hj as (i' & x' & Heq & Hi & Hx).
    injection Heq as -> ->. apply lookup_seq in Hi as [-> _]. done.
  - intros Hx. exists i. apply lookup_zip_with_Some. exists i, x.
    split; [done|]. split; [|done]. apply lookup_seq. split; [done|].
    now apply lookup_lt_Some in Hx.
Qed.

(** A loop of [store] rounds leaves under a key what the last round that
    stored under the key gave. *)
Lemma foldl_store_lookup {A V} (key : A -> string) (val : A -> option V)
    (l : list A) (k : string) (v : V) :
  foldl (store key val) ∅ l !! k = Some v <->
  exists before x after,
    l = before ++ x :: after /\ key x = k /\ val x = Some v /\
    forall x', x' ∈ after -> key x' = k -> val x' = None.
Proof.
  induction l as [|x l IH] using rev_ind.
  - simpl. rewrite lookup_empty. split; [discriminate|].
    intros (before & x & after & Hl & _). now destruct before.
  - rewrite foldl_app. simpl. unfold store at 1.
    assert (Hlast : forall before x0 after,
              l ++ [x] = before ++ x0 :: after ->
              (after = [] /\ before = l /\ x0 = x) \/
              exists after', after = after' ++ [x] /\
                             l = before ++ x0 :: after').
    { intros before x0 after Hl.
      destruct after as [|x1 after _] using rev_ind.
      - apply app_inj_tail in Hl as [<- <-]. now left.
      - rewrite app_comm_cons, app_assoc in Hl.
        apply app_inj_tail in Hl as [-> ->]. right. eauto. }
    assert (Hkeep : val x = None \/ key x <> k ->
              (exists before x0 after,
                 l = before ++ x0 :: after /\ key x0 = k /\
                 val x0 = Some v /\
                 forall x', x' ∈ after -> key x' = k -> val x' = None) <->
              (exists before x0 after,
                 l ++ [x] = before ++ x0 :: after /\ key x0 = k /\
                 val x0 = Some v /\
                 forall x', x' ∈ after -> key x' = k -> val x' = None)).
    { intros Hx. split.
      - intros (before & x0 & after & -> & Hk & Hv & Hlater).
        exists before, x0, (after ++ [x]).
        split; [now rewrite <- app_assoc|]. do 2 (split; [done|]).
        intros x' [Hin| ->%list_elem_of_singleton]%elem_of_app Hk';
          [eauto|]. now destruct Hx.
      - intros (before & x0 & after & Hl & Hk & Hv & Hlater).
        destruct (Hlast _ _ _ Hl) as [(-> & -> & ->)|(after' & -> & ->)].
        + destruct Hx; congruence.
        + exists before, x0, after'. do 3 (split; [done|]).
          intros x' Hin. apply Hlater, elem_of_app. now left. }
    destruct (val x) as [vx|] eqn:Hvx.
    + destruct (decide (key x = k)) as [Hk|Hk].
      * rewrite <- Hk, lookup_insert_eq. split.
        { intros [= <-]. exists l, x, []. do 3 (split; [done|]).
          intros x' Hin. inversion Hin. }
        intros (before & x0 & after & Hl & Hk0 & Hv & Hlater).
        destruct (Hlast _ _ _ Hl) as [(-> & -> & ->)|(after' & -> & ->)];
          [congruence|].
        exfalso. assert (val x = None); [|congruence].
        apply Hlater; [|done]. apply elem_of_app. right. constructor.
      * rewrite lookup_insert_ne by done. rewrite IH. apply Hkeep. now right.
    + rewrite IH. apply Hkeep. now left.
Qed.


Section WrapperFacts.

Variable float : string -> option Q.

(** Every setup that a loop of insertions leaves was inserted by a round. *)
Lemma foldl_insert_from {A} (key : A -> string) (val : A -> VariantData)
    (l : list A) (d : gmap string VariantData) s sd :
  foldl (fun d x => <[key x := val x]> d) d l !! s = Some sd ->
  d !! s = Some sd \/ exists x, x ∈ l /\ s = key x /\ sd = val x.
Proof.
  revert d. induction l as [|x l IH]; intros d; simpl; [now left|].
  intros Hs. destruct (IH _ Hs) as [Hd|(y & Hy & -> & ->)].
  - destruct (decide (s = key x)) as [->|Hne].
    + rewrite lookup_insert_eq in Hd. injection Hd as <-.
      right. exists x. split; [constructor|done].
    + rewrite lookup_insert_ne in Hd by done. now left.
  - right. exists y. split; [now constructor|done].
Qed.

Lemma foldl_insert_size {A} (key : A -> string) (val : A -> VariantData)
    (l : list A) (d : gmap string VariantData) :
  size d <> 0%nat \/ l <> [] ->
  size (foldl (fun d x => <[key x := val x]> d) d l) <> 0%nat.
Proof.
  revert d. induction l as [|x l IH]; intros d; simpl.
  - intros [Hd|Hl]; done.
  - intros _. apply IH. left. rewrite map_size_ne_0_lookup.
    exists (key x). rewrite lookup_insert_eq. eauto.
Qed.

Lemma model_setups_fold va :
  model_setups float va =
  foldl (fun d (x : nat * AcceleratorProfile) =>
           <[setup_id x.1 x.2 := variant_data float x.1 x.2]> d)
    ∅ (enumerate (spec_accelerators va)).
Proof.
  unfold model_setups. generalize (∅ : gmap string VariantData).
  induction (enumerate (spec_accelerators va)) as [|[i p] l IH]; intros d;
    [reflexivity|]. simpl. apply IH.
Qed.

Lemma model_setups_lookup va s sd :
  model_setups float va !! s = Some sd ->
  exists i acc_profile,
    spec_accelerators va !! i = Some acc_profile /\
    s = setup_id i acc_profile /\ sd = variant_data float i acc_profile.
Proof.
  rewrite model_setups_fold. intros Hs.
  apply foldl_insert_from in Hs as [Hs|([i p] & Hin & -> & ->)].
  - rewrite lookup_empty in Hs. discriminate.
  - exists i, p. split; [now apply enumerate_lookup|done].
Qed.

Lemma model_setups_empty va :
  size (model_setups float va) = 0%nat <-> spec_accelerators va = [].
Proof.
  rewrite model_setups_fold. split.
  - intros Hsize. destruct (spec_accelerators va) as [|p l]; [done|].
    exfalso. revert Hsize. apply foldl_insert_size. right.
    unfold enumerate. simpl. discriminate.
  - intros ->. reflexivity.
Qed.

Lemma extract_variants_to_dict go_data :
  to_dict (extract_variants_from_go float go_data) =
  foldl (store spec_modelID (setups_of float)) ∅
    (default [] (variant_autoscalings go_data)).
Proof.
  unfold extract_variants_from_go.
  change (∅ : gmap string (gmap string VariantData))
    with (to_dict ([] : odict (gmap string VariantData))).
  generalize ([] : odict (gmap string VariantData)).
  induction (default [] (variant_autoscalings go_data)) as [|va l IH];
    intros d; [reflexivity|].
  simpl. rewrite IH. f_equal. unfold store, setups_of.
  destruct (decide (size (model_setups float va) = 0%nat)); [done|].
  apply to_dict_setitem.
Qed.

Lemma setups_of_Some va setups :
  setups_of float va = Some setups <->
  spec_accelerators va <> [] /\ setups = model_setups float va.
Proof.
  unfold setups_of. rewrite <- model_setups_empty.
  destruct (decide (size (model_setups float va) = 0%nat)); split.
  - discriminate.
  - now intros [? _].
  - intros [= <-]. done.
  - now intros [_ ->].
Qed.

Lemma setups_of_None va :
  setups_of float va = None <-> spec_accelerators va = [].
Proof.
  unfold setups_of. rewrite <- model_setups_empty.
  now destruct (decide (size (model_setups float va) = 0%nat)).
Qed.

Lemma extract_variants_values go_data k v :
  (k, v) ∈ extract_variants_from_go float go_data -> size v <> 0%nat.
Proof.
  unfold extract_variants_from_go.
  enough (Hgen : forall l (d : odict (gmap string VariantData)),
    (forall k v, (k, v) ∈ d -> size v <> 0%nat) ->
    (k, v) ∈ foldl (fun variants_data va =>
       if decide (size (model_setups float va) = 0%nat) then variants_data
       else setitem (spec_modelID va) (model_setups float va) variants_data)
      d l -> size v <> 0%nat).
  { apply Hgen. intros k' v' Hin. inversion Hin. }
  induction l as [|va l IH]; intros d Hd; simpl; [apply Hd|].
  apply IH. intros k' v'.
  destruct (decide (size (model_setups float va) = 0%nat)); [apply Hd|].
  intros [Heq|Hin]%elem_of_setitem; [|now apply (Hd k')].
  now injection Heq as -> ->.
Qed.

Lemma extract_variants_from go_data m setups :
  to_dict (extract_variants_from_go float go_data) !! m = Some setups ->
  exists va,
    va ∈ default [] (variant_autoscalings go_data) /\
    spec_modelID va = m /\ spec_accelerators va <> [] /\
    setups = model_setups float va.
Proof.
  rewrite extract_variants_to_dict, foldl_store_lookup.
  intros (before & va & after & Hl & Hm & [Hacc ->]%setups_of_Some & _).
  exists va. split; [|done]. rewrite Hl. apply elem_of_app. right. constructor.
Qed.


End WrapperFacts.

(** X15. The catalog of [extract_variants_from_go] holds for a model the
    setups of the last [VariantAutoscaling] with that [modelID] and at least
    one accelerator profile; objects without profiles leave no trace. *)
Theorem extract_variants_lookup float go_data m setups :
  to_dict (extract_variants_from_go float go_data) !! m = Some setups <->
  exists before va after,
    default [] (variant_autoscalings go_data) = before ++ va :: after /\
    spec_modelID va = m /\ spec_accelerators va <> [] /\
    setups = model_setups float va /\
    forall va', va' ∈ after -> spec_modelID va' = m ->
                spec_accelerators va' = [].
Proof.
  rewrite extract_variants_to_dict, foldl_store_lookup.
  split; intros (before & va & after & Hl & Hm & Hs & Hlater);
    exists before, va, after; (split; [done|]); (split; [done|]).
  - apply setups_of_Some in Hs as [Hacc ->]. do 2 (split; [done|]).
    intros va' Hin Hm'.
    exact (proj1 (setups_of_None float va') (Hlater va' Hin Hm')).
  - destruct Hlater as (-> & Hlater).
    split; [exact (proj2 (setups_of_Some float va _) (conj Hs eq_refl))|].
    intros va' Hin Hm'.
    exact (proj2 (setups_of_None float va') (Hlater va' Hin Hm')).
Qed.

(** X16. Every setup of the extracted catalog is stored under its own
    [variant_id], which is the accelerator name and the index of a profile of
    a [VariantAutoscaling] of the model; its type, GPU count and concurrency
    are those of the profile, its role and class the defaults. *)
Theorem extracted_setups float go_data m setups s sd :
  to_dict (extract_variants_from_go float go_data) !! m = Some setups ->
  setups !! s = Some sd ->
  variant_id sd = s /\ role sd = "inference" /\ slo_class sd = "default" /\
  exists va i acc_profile,
    va ∈ default [] (variant_autoscalings go_data) /\
    spec_modelID va = m /\
    spec_accelerators va !! i = Some acc_profile /\
    s = setup_id i acc_profile /\
    gpu_type sd = acc acc_profile /\
    gpu_number sd = inject_Z (accCount acc_profile) /\
    max_concurrency sd = inject_Z (maxBatchSize acc_profile).
Proof.
  intros (va & Hin & Hm & _ & ->)%extract_variants_from Hs.
  apply model_setups_lookup in Hs as (i & p & Hp & -> & ->).
  do 3 (split; [reflexivity|]). exists va, i, p. done.
Qed.

(** ** The allocations *)

Lemma model_allocation_total model_data :
  (model_allocation model_data).1 =
  sumZ (InstancesData.instance_num <$> values (requiredInstances model_data)).
Proof.
  unfold model_allocation, values, items.
  generalize (map_to_list (requiredInstances model_data)). intros l.
  enough (Hgen : forall t acc,
    (foldl (fun '(total_replicas, accelerator) '(setup_id, instance_data) =>
              ((total_replicas + InstancesData.instance_num instance_data)%Z,
               if decide (accelerator = "")
               then InstancesData.gpu_type instance_data
               else accelerator)) (t, acc) l).1 =
    (t + sumZ (InstancesData.instance_num <$> l.*2))%Z) by apply Hgen.
  induction l as [|[s i] l IH]; intros t acc.
  - unfold sumZ. simpl. lia.
  - cbn [foldl]. rewrite IH, !fmap_cons. unfold sumZ. cbn [foldr snd]. lia.
Qed.

Lemma model_allocation_accelerator model_data :
  (model_allocation model_data).2 = "" \/
  exists s i,
    requiredInstances model_data !! s = Some i /\
    InstancesData.gpu_type i = (model_allocation model_data).2.
Proof.
  unfold model_allocation, items.
  assert (Hin : forall s i,
            (s, i) ∈ map_to_list (requiredInstances model_data) ->
            requiredInstances model_data !! s = Some i)
    by (intros s i; apply elem_of_map_to_list).
  revert Hin. generalize (map_to_list (requiredInstances model_data)).
  intros l Hin.
  enough (Hgen : forall t acc,
    let r := foldl
      (fun '(total_replicas, accelerator) '(setup_id, instance_data) =>
         ((total_replicas + InstancesData.instance_num instance_data)%Z,
          if decide (accelerator = "")
          then InstancesData.gpu_type instance_data
          else accelerator)) (t, acc) l in
    r.2 = acc \/
    exists s i, (s, i) ∈ l /\ InstancesData.gpu_type i = r.2).
  { destruct (Hgen 0%Z "") as [Heq|(s & i & Hl & Hi)]; [now left|].
    right. exists s, i. split; [now apply Hin|done]. }
  clear Hin. induction l as [|[s i] l IH]; intros t acc; [now left|].
  cbn [foldl]. cbv zeta.
  destruct (IH (t + InstancesData.instance_num i)%Z
              (if decide (acc = "") then InstancesData.gpu_type i else acc))
    as [Heq|(s' & i' & Hl & Hi)].
  - cbv zeta in Heq. rewrite Heq. destruct (decide (acc = "")); [|now left].
    right. exists s, i. split; [constructor|done].
  - right. exists s', i'. split; [now constructor|done].
Qed.

Lemma allocate_store opt_result d va :
  allocate opt_result d va =
  store metadata_name (allocation_of opt_result) d va.
Proof.
  unfold allocate, store, allocation_of.
  destruct (opt_result ≫= _) as [md|]; [|reflexivity]. simpl.
  destruct (model_allocation md) as [t acc]. simpl.
  now destruct (decide (0 < t)%Z).
Qed.

Lemma allocations_store opt_result vas :
  optimized_allocations (transform_python_output_for_go opt_result vas) =
  foldl (store metadata_name (allocation_of opt_result)) ∅ vas.
Proof.
  simpl. generalize (∅ : gmap string OptimizedAlloc).
  induction vas as [|va vas IH]; intros d; [reflexivity|].
  simpl. now rewrite allocate_store, IH.
Qed.

Lemma allocation_of_Some r va alloc :
  allocation_of (Some r) va = Some alloc <->
  exists model_data,
    models_data r !! spec_modelID va = Some model_data /\
    alloc = mkOptimizedAlloc (model_allocation model_data).2
              (model_allocation model_data).1 /\
    (0 < (model_allocation model_data).1)%Z.
Proof.
  unfold allocation_of. simpl.
  destruct (models_data r !! spec_modelID va) as [md|]; simpl.
  - destruct (decide (0 < (model_allocation md).1)%Z) as [Hpos|Hneg]; split.
    + intros [= <-]. eauto.
    + intros (md' & [= <-] & -> & _). done.
    + discriminate.
    + intros (md' & [= <-] & _ & Hpos). done.
  - split; [discriminate|]. intros (md & Hmd & _). discriminate.
Qed.


Lemma allocation_from r vas n alloc :
  optimized_allocations (transform_python_output_for_go (Some r) vas) !! n
    = Some alloc ->
  exists va model_data,
    va ∈ vas /\ metadata_name va = n /\
    models_data r !! spec_modelID va = Some model_data /\
    alloc = mkOptimizedAlloc (model_allocation model_data).2
              (model_allocation model_data).1 /\
    (0 < (model_allocation model_data).1)%Z.
Proof.
  rewrite allocations_store, foldl_store_lookup.
  intros (before & va & after & -> & Hn &
          (md & Hmd & Hal & Hpos)%allocation_of_Some & _).
  exists va, md. split; [|done]. apply elem_of_app. right. constructor.
Qed.

(** X18. Every allocation written has at least one replica; its
    [numReplicas] is the sum of [instance_num] over all setups of the
    object's model, and its accelerator is the type of one of these setups
    or the empty string. *)
Theorem allocation_sound r vas n alloc :
  optimized_allocations (transform_python_output_for_go (Some r) vas) !! n
    = Some alloc ->
  (1 <= numReplicas alloc)%Z /\
  exists va model_data,
    va ∈ vas /\ metadata_name va = n /\
    models_data r !! spec_modelID va = Some model_data /\
    numReplicas alloc =
      sumZ (InstancesData.instance_num
              <$> values (requiredInstances model_data)) /\
    (accelerator alloc = "" \/
     exists s i,
       requiredInstances model_data !! s = Some i /\
       InstancesData.gpu_type i = accelerator alloc).
Proof.
  intros (va & md & Hin & Hn & Hmd & -> & Hpos)%allocation_from. simpl.
  split; [lia|]. exists va, md. do 3 (split; [done|]).
  split; [apply model_allocation_total|apply model_allocation_accelerator].
Qed.


(** ** The call as a whole *)

Lemma first_setup_extracted float go_data :
  first_setup (extract_variants_from_go float go_data) = Done tt.
Proof.
  unfold first_setup.
  destruct (extract_variants_from_go float go_data) as [|[k v] l] eqn:Hl;
    [done|].
  assert (Hsize : size v <> 0%nat).
  { apply (extract_variants_values float go_data k). rewrite Hl. constructor. }
  unfold values. rewrite map_size_ne_0_lookup in Hsize.
  destruct Hsize as (s & sd & Hs). apply elem_of_map_to_list in Hs.
  destruct (map_to_list v); [inversion Hs|done].
Qed.

Lemma run_optimization_extracted float solve go_data :
  run_optimization solve (transform_go_input_to_python float go_data) =
  match optimize solve
          (optimizer_call (transform_go_input_to_python float go_data)) with
  | Return result => Done result
  | Raise e => Failed (OptimizerError e)
  end.
Proof.
  unfold run_optimization.
  change (input_variants_data (transform_go_input_to_python float go_data))
    with (extract_variants_from_go float go_data).
  now rewrite first_setup_extracted.
Qed.




(** X21. When the backend finds no solution, [main] reports [success]
    with no allocation and the empty result. *)
Theorem main_no_solution float solve go_data mdl :
  encoded_model (optimizer_call (transform_go_input_to_python float go_data))
    = Return mdl ->
  solve mdl = None ->
  main float solve go_data = mkGoOutput ∅ (Some empty_result) true.
Proof.
  intros Henc Hsolve. unfold main.
  rewrite run_optimization_extracted.
  rewrite (optimize_no_solution solve _ mdl Henc Hsolve).
  unfold transform_python_output_for_go. f_equal.
  generalize (∅ : gmap string OptimizedAlloc).
  induction (default [] (variant_autoscalings go_data)) as [|va l IH];
    intros d; [reflexivity|].
  simpl. rewrite allocate_store. apply IH.
Qed.


(** ** The properties on the concrete input *)


Lemma extract_variants_lookup_witness :
  to_dict (extract_variants_from_go float_table go_example) !! "m"
    = Some (model_setups float_table go_va).
Proof.
  apply (proj2 (extract_variants_lookup float_table go_example "m"
                  (model_setups float_table go_va))).
  exists [], go_va, []. split; [reflexivity|]. split; [reflexivity|].
  split; [discriminate|]. split; [reflexivity|].
  intros va' Hin. inversion Hin.
Defined.

Lemma extracted_setups_witness :
  variant_id (variant_data float_table 0 go_profile) = "A100-0" /\
  role (variant_data float_table 0 go_profile) = "inference" /\
  slo_class (variant_data float_table 0 go_profile) = "default" /\
  exists va i acc_profile,
    va ∈ default [] (variant_autoscalings go_example) /\
    spec_modelID va = "m" /\
    spec_accelerators va !! i = Some acc_profile /\
    "A100-0" = setup_id i acc_profile /\
    gpu_type (variant_data float_table 0 go_profile) = acc acc_profile /\
    gpu_number (variant_data float_table 0 go_profile)
      = inject_Z (accCount acc_profile) /\
    max_concurrency (variant_data float_table 0 go_profile)
      = inject_Z (maxBatchSize acc_profile).
Proof.
  apply (extracted_setups float_table go_example "m"
           (model_setups float_table go_va)).
  - vm_compute. reflexivity.
  - vm_compute. reflexivity.
Defined.


Lemma allocation_sound_witness :
  (1 <= numReplicas (mkOptimizedAlloc "A100" 1))%Z /\
  exists va model_data,
    va ∈ [go_va] /\ metadata_name va = "va-m" /\
    models_data (result_of (answer go_solution) go_call) !! spec_modelID va
      = Some model_data /\
    numReplicas (mkOptimizedAlloc "A100" 1) =
      sumZ (InstancesData.instance_num
              <$> values (requiredInstances model_data)) /\
    (accelerator (mkOptimizedAlloc "A100" 1) = "" \/
     exists s i,
       requiredInstances model_data !! s = Some i /\
       InstancesData.gpu_type i = accelerator (mkOptimizedAlloc "A100" 1)).
Proof.
  apply (allocation_sound (result_of (answer go_solution) go_call) [go_va]
           "va-m" (mkOptimizedAlloc "A100" 1)).
  vm_compute. reflexivity.
Defined.



Lemma main_no_solution_witness :
  main float_table (fun _ => None) go_example
    = mkGoOutput ∅ (Some empty_result) true.
Proof.
  apply (main_no_solution float_table (fun _ => None) go_example
           (model_of_call go_call)).
  - vm_compute. reflexivity.
  - reflexivity.
Defined.


